(** * robot-ps4: the PS4 gamepad controller of a two-wheel robot

    A shallow embedding of [robot_controller.py] (class [PS4Controller]) and
    of the defaults of [robot_ps4/config.py], followed by the properties of
    the input-event interpretation and motion-control state machine.

    Conventions of the embedding:
    - Python [float] is the kernel's binary64 [float]; [int] is [Z];
      [str] is [string]; a [dict] with string keys is a [gmap string _].
    - A method of the class is a computation in the monad [M]: it reads and
      updates the attributes of [self], may raise a Python exception, and
      performs effects on the outside world (the motor driver, the logger,
      [time.sleep]) that are recorded, in order, in a list of [effect]s.
    - [time.time()] is an oracle: its n-th call returns [clock n].  Clock
      readings are integers in a fixed unit, so that the subtraction in
      [move] is exact.
    - The motor driver is its range check: the assignment of a motor value
      outside [-1, 1] raises [OutputDeviceBadValue].
    - The interpreter's bound on the depth of recursion is a parameter of
      [find_controller], which retries by calling itself.  *)

From Stdlib Require Import ZArith List Bool Lia Floats.PrimFloat.
From stdpp Require Import gmap strings.

#[local] Set Warnings "-inexact-float".
#[local] Open Scope Z_scope.

(** ** The collaborators *)

(** The part of the [evdev] library that the controller uses: the event
    record and the event-code constants of the Linux input subsystem. *)
Module evdev.

Record InputEvent : Type := { type : Z; code : Z; value : Z }.

Module ecodes.
Definition EV_KEY : Z := 1.
Definition EV_ABS : Z := 3.
Definition ABS_X : Z := 0.
End ecodes.

End evdev.

(** The exceptions that occur.  [KeyboardInterrupt] and [SystemExit] derive
    from [BaseException] only; the others derive from [Exception], among
    them [OutputDeviceBadValue] of the motor driver. *)
Inductive exn : Type :=
| KeyboardInterrupt
| SystemExit
| OSError
| TypeError
| KeyError
| OutputDeviceBadValue.

Definition is_KeyboardInterrupt (e : exn) : bool :=
  match e with KeyboardInterrupt => true | _ => false end.

Definition is_Exception (e : exn) : bool :=
  match e with
  | KeyboardInterrupt | SystemExit => false
  | OSError | TypeError | KeyError | OutputDeviceBadValue => true
  end.

(** A Python number: the motor tuples of [move] mix [int] literals with
    [float] attributes. *)
Inductive num : Type :=
| PyInt (z : Z)
| PyFloat (f : float).

(** Log records, by the format string that produces them. *)
Inductive level : Type := DEBUG | INFO | ERROR.

Inductive message : Type :=
| MovingFor (direction : string) (duration : Z)
    (* "Moving {current_direction} for {duration:.2f} seconds" *)
| Moving (direction : string)            (* "Moving {direction}" *)
| Spinning (direction : string)          (* "Spinning {direction}" *)
| MotorSpeeds (left right : float)
    (* "Left motor speed: {..}, Right motor speed: {..}" *)
| Terminated                             (* "Controller script terminated." *)
| MainLoopError (e : exn).               (* "Error in main loop: {e}" *)

(** The motor driver ([gpiozero]) accepts a motor value [v] with
    [-1 <= v <= 1] and raises [OutputDeviceBadValue] for any other. *)
Definition in_range (x : num) : bool :=
  match x with
  | PyInt z => (-1 <=? z) && (z <=? 1)
  | PyFloat f => PrimFloat.leb (-1) f && PrimFloat.leb f 1
  end.

Definition command_in_range (v : num * num) : bool :=
  in_range v.1 && in_range v.2.

(** What the controller does to the outside world. *)
Inductive effect : Type :=
| Log (lv : level) (m : message)         (* self.logger.<lv>(m) *)
| RobotValue (v : num * num)             (* self.robot.value = v *)
| Sleep (seconds : Z).                   (* time.sleep(seconds) *)

(** ** Configuration: [robot_ps4/config.py] *)

Record Config : Type := {
  LEFT_MOTOR_SPEED : float;
  RIGHT_MOTOR_SPEED : float;
  SLOW_SPEED : float;
  NORMAL_SPEED : float;
  FAST_SPEED : float;
  SUPER_SPEED : float;
  CFG_HIGH_DEADZONE : Z;
  CFG_LOW_DEADZONE : Z
}.

(** The values taken when no environment variable overrides them. *)
Definition default_config : Config := {|
  LEFT_MOTOR_SPEED := 0.5;
  RIGHT_MOTOR_SPEED := 0.51;
  SLOW_SPEED := 0.25;
  NORMAL_SPEED := 0.5;
  FAST_SPEED := 0.75;
  SUPER_SPEED := 0.99;
  CFG_HIGH_DEADZONE := 150;
  CFG_LOW_DEADZONE := 100
|}.

(** ** The controller object *)

(** The attributes of [PS4Controller] that the methods read or write.
    [ticks] is not an attribute: it counts the calls of [time.time()] made so
    far, i.e. the position of the next reading of the clock. *)
Record PS4Controller : Type := {
  leftmotorspeed : float;
  rightmotorspeed : float;
  SLOW : float;
  NORMAL : float;
  FAST : float;
  SUPER : float;
  variable_speed_map : gmap string Z;
  HIGH_DEADZONE : Z;
  LOW_DEADZONE : Z;
  current_direction : option string;
  direction_start_time : option Z;
  ticks : nat
}.

Definition BUTTON_PRESS : Z := 1.
Definition BUTTON_RELEASE : Z := 0.

(** [create_key_map]: the dictionary is never modified afterwards. *)
Definition key_map : gmap string Z :=
  list_to_map
    [ ("x", 304); ("square", 308); ("triangle", 307); ("circle", 305);
      ("lt", 312); ("lb", 310); ("rt", 313); ("rb", 311) ].

(** [self.key_map[name]], for the names that the code subscripts with, all of
    which are keys of the dictionary (see [key_map_keys]). *)
Definition key (name : string) : Z := default 0 (key_map !! name).

(** [__init__], without the acquisition of the device. *)
Definition init (cfg : Config) : PS4Controller := {|
  leftmotorspeed := LEFT_MOTOR_SPEED cfg;
  rightmotorspeed := RIGHT_MOTOR_SPEED cfg;
  SLOW := SLOW_SPEED cfg;
  NORMAL := NORMAL_SPEED cfg;
  FAST := FAST_SPEED cfg;
  SUPER := SUPER_SPEED cfg;
  variable_speed_map := list_to_map [("slow", 0); ("fast", 0); ("super", 0)];
  HIGH_DEADZONE := CFG_HIGH_DEADZONE cfg;
  LOW_DEADZONE := CFG_LOW_DEADZONE cfg;
  current_direction := None;
  direction_start_time := None;
  ticks := 0
|}.

(** Attribute assignments. *)
Definition set_speeds (l r : float) (s : PS4Controller) : PS4Controller := {|
  leftmotorspeed := l;
  rightmotorspeed := r;
  SLOW := SLOW s; NORMAL := NORMAL s; FAST := FAST s; SUPER := SUPER s;
  variable_speed_map := variable_speed_map s;
  HIGH_DEADZONE := HIGH_DEADZONE s; LOW_DEADZONE := LOW_DEADZONE s;
  current_direction := current_direction s;
  direction_start_time := direction_start_time s;
  ticks := ticks s
|}.

Definition set_flag (speed_type : string) (v : Z) (s : PS4Controller)
  : PS4Controller := {|
  leftmotorspeed := leftmotorspeed s;
  rightmotorspeed := rightmotorspeed s;
  SLOW := SLOW s; NORMAL := NORMAL s; FAST := FAST s; SUPER := SUPER s;
  variable_speed_map := <[speed_type := v]> (variable_speed_map s);
  HIGH_DEADZONE := HIGH_DEADZONE s; LOW_DEADZONE := LOW_DEADZONE s;
  current_direction := current_direction s;
  direction_start_time := direction_start_time s;
  ticks := ticks s
|}.

Definition set_current_direction (d : string) (s : PS4Controller)
  : PS4Controller := {|
  leftmotorspeed := leftmotorspeed s;
  rightmotorspeed := rightmotorspeed s;
  SLOW := SLOW s; NORMAL := NORMAL s; FAST := FAST s; SUPER := SUPER s;
  variable_speed_map := variable_speed_map s;
  HIGH_DEADZONE := HIGH_DEADZONE s; LOW_DEADZONE := LOW_DEADZONE s;
  current_direction := Some d;
  direction_start_time := direction_start_time s;
  ticks := ticks s
|}.

Definition set_direction_start_time (t : Z) (s : PS4Controller)
  : PS4Controller := {|
  leftmotorspeed := leftmotorspeed s;
  rightmotorspeed := rightmotorspeed s;
  SLOW := SLOW s; NORMAL := NORMAL s; FAST := FAST s; SUPER := SUPER s;
  variable_speed_map := variable_speed_map s;
  HIGH_DEADZONE := HIGH_DEADZONE s; LOW_DEADZONE := LOW_DEADZONE s;
  current_direction := current_direction s;
  direction_start_time := Some t;
  ticks := ticks s
|}.

Definition tick (s : PS4Controller) : PS4Controller := {|
  leftmotorspeed := leftmotorspeed s;
  rightmotorspeed := rightmotorspeed s;
  SLOW := SLOW s; NORMAL := NORMAL s; FAST := FAST s; SUPER := SUPER s;
  variable_speed_map := variable_speed_map s;
  HIGH_DEADZONE := HIGH_DEADZONE s; LOW_DEADZONE := LOW_DEADZONE s;
  current_direction := current_direction s;
  direction_start_time := direction_start_time s;
  ticks := S (ticks s)
|}.

(** ** The monad of methods: state, exceptions, recorded effects *)

Inductive outcome (A : Type) : Type :=
| Done (a : A)          (* the call returned [a] *)
| Raised (e : exn).     (* the call raised [e] *)
Arguments Done {A} a.
Arguments Raised {A} e.

Definition M (A : Type) : Type :=
  PS4Controller → outcome A * PS4Controller * list effect.

Definition ret {A} (a : A) : M A := λ s, (Done a, s, []).

Definition bind {A B} (m : M A) (k : A → M B) : M B := λ s,
  match m s with
  | (Done a, s1, t1) =>
      match k a s1 with (o, s2, t2) => (o, s2, t1 ++ t2) end
  | (Raised e, s1, t1) => (Raised e, s1, t1)
  end.

Definition raise {A} (e : exn) : M A := λ s, (Raised e, s, []).
Definition emit (x : effect) : M unit := λ s, (Done tt, s, [x]).
Definition get : M PS4Controller := λ s, (Done s, s, []).
Definition modify (f : PS4Controller → PS4Controller) : M unit :=
  λ s, (Done tt, f s, []).

Declare Scope py_scope.
Delimit Scope py_scope with py.
Bind Scope py_scope with M.
Notation "x <- m ;; k" := (bind m (λ x, k))
  (at level 100, m at next level, right associativity) : py_scope.
Notation "m ;; k" := (bind m (λ _, k))
  (at level 100, right associativity) : py_scope.
#[local] Open Scope py_scope.

Section Methods.

(** The readings of [time.time()], in the order of the calls. *)
Variable clock : nat → Z.

Definition time_time : M Z := λ s, (Done (clock (ticks s)), tick s, []).

(** The [directions] dictionary built by [move]. *)
Definition directions (s : PS4Controller) : gmap string (num * num) :=
  list_to_map
    [ ("forward", (PyFloat (- leftmotorspeed s), PyFloat (- rightmotorspeed s)));
      ("backward", (PyFloat (leftmotorspeed s), PyFloat (rightmotorspeed s)));
      ("left", (PyFloat (- leftmotorspeed s), PyFloat (rightmotorspeed s)));
      ("right", (PyFloat (leftmotorspeed s), PyFloat (- rightmotorspeed s)));
      ("sharp_left", (PyInt 1, PyInt (-1)));
      ("sharp_right", (PyInt (-1), PyInt 1));
      ("stop", (PyInt 0, PyInt 0)) ].

(** [self.robot.value = v]: the assignment is made, and the driver raises
    [OutputDeviceBadValue] when one of the two values is out of range. *)
Definition robot_value (v : num * num) : M unit :=
  emit (RobotValue v) ;;
  if command_in_range v then ret tt else raise OutputDeviceBadValue.

(** [time.time() - self.direction_start_time]: the left operand is
    evaluated first; subtracting [None] from a float raises [TypeError]. *)
Definition elapsed : M Z :=
  now <- time_time ;;
  s <- get ;;
  match direction_start_time s with
  | Some start => ret (now - start)
  | None => raise TypeError
  end.

Definition move (direction : string) : M unit :=
  s <- get ;;
  (if bool_decide (current_direction s ≠ Some direction) then
     (match current_direction s with
      | Some current =>
          duration <- elapsed ;;
          emit (Log INFO (MovingFor current duration))
      | None => ret tt
      end) ;;
     modify (set_current_direction direction) ;;
     now <- time_time ;;
     modify (set_direction_start_time now)
   else ret tt) ;;
  emit (Log DEBUG (Moving direction)) ;;
  s <- get ;;
  robot_value (default (PyInt 0, PyInt 0) (directions s !! direction)).

Definition spin (direction : string) : M unit :=
  emit (Log INFO (Spinning direction)) ;;
  move ("sharp_" +:+ direction) ;;
  emit (Sleep 1) ;;
  move "stop".

Definition modify_speed_helper (speed_type : string) : M unit :=
  s <- get ;;
  match variable_speed_map s !! speed_type with
  | None => raise KeyError
  | Some flag =>
      if flag =? 0 then
        (if String.eqb speed_type "slow" then
           modify (set_speeds (SLOW s) (SLOW s + 0.01))
         else if String.eqb speed_type "fast" then
           modify (set_speeds (FAST s) (FAST s + 0.01))
         else if String.eqb speed_type "super" then
           modify (set_speeds (SUPER s) (SUPER s + 0.01))
         else ret tt) ;;
        modify (set_flag speed_type 1)
      else
        modify (set_speeds (NORMAL s) (NORMAL s + 0.01)) ;;
        modify (set_flag speed_type 0)
  end.

Definition modify_speed (event_code : Z) : M unit :=
  (if event_code =? key "square" then modify_speed_helper "slow"
   else if event_code =? key "x" then modify_speed_helper "fast"
   else if event_code =? key "circle" then modify_speed_helper "super"
   else ret tt) ;;
  s <- get ;;
  emit (Log INFO (MotorSpeeds (leftmotorspeed s) (rightmotorspeed s))).

(** [event.code in [a, b, ...]] *)
Definition code_in (c : Z) (l : list Z) : bool := existsb (Z.eqb c) l.

Definition handle_key_event (event : evdev.InputEvent) (button_is_held : bool)
  : M bool :=
  if evdev.value event =? BUTTON_PRESS then
    (if evdev.code event =? key "rb" then move "forward"
     else if evdev.code event =? key "lb" then move "backward"
     else ret tt) ;;
    ret true
  else if evdev.value event =? BUTTON_RELEASE then
    (if code_in (evdev.code event) [key "lb"; key "rb"] then move "stop"
     else if code_in (evdev.code event) [key "lt"; key "rt"] then
       spin (if evdev.code event =? 313 then "right" else "left")
     else if code_in (evdev.code event) [key "square"; key "x"; key "circle"]
     then modify_speed (evdev.code event)
     else if evdev.code event =? key "triangle" then raise KeyboardInterrupt
     else ret tt) ;;
    ret false
  else ret button_is_held.

Definition handle_abs_event (absevent : evdev.InputEvent)
  (button_is_held : bool) : M unit :=
  s <- get ;;
  if evdev.code absevent =? evdev.ecodes.ABS_X then
    if evdev.value absevent >=? HIGH_DEADZONE s then move "right"
    else if evdev.value absevent <=? LOW_DEADZONE s then move "left"
    else if negb button_is_held then move "stop"
    else ret tt
  else ret tt.

(** What [self.controller.read_loop()] delivers next: an event, or an
    exception raised by the read. *)
Inductive input : Type :=
| Event (event : evdev.InputEvent)
| ReadFails (e : exn).

(** The [for] loop of [main] over the inputs delivered so far.  It returns
    [button_is_held] when they are used up: the generator never ends, the
    loop is then blocked in the next read. *)
Fixpoint event_loop (inputs : list input) (button_is_held : bool)
  : M bool :=
  match inputs with
  | [] => ret button_is_held
  | ReadFails e :: _ => raise e
  | Event event :: rest =>
      held <- (if evdev.type event =? evdev.ecodes.EV_KEY then
                 handle_key_event event button_is_held
               else if evdev.type event =? evdev.ecodes.EV_ABS then
                 handle_abs_event event button_is_held ;;
                 ret button_is_held
               else ret button_is_held) ;;
      event_loop rest held
  end.

(** How a call of [main] stands after the inputs delivered so far. *)
Inductive ending : Type :=
| Waiting (button_is_held : bool)   (* still in the loop, in the next read *)
| Returned                          (* [main] returned to its caller *)
| Propagated (e : exn).             (* [e] left [main] *)

(** An [except] clause of [main], entered in state [s1] after the effects
    [t1] of the [try] body. *)
Definition except_clause (handler : M unit) (s1 : PS4Controller)
  (t1 : list effect) : ending * PS4Controller * list effect :=
  match handler s1 with
  | (Done _, s2, t2) => (Returned, s2, t1 ++ t2)
  | (Raised e, s2, t2) => (Propagated e, s2, t1 ++ t2)
  end.

Definition main (inputs : list input) (s : PS4Controller)
  : ending * PS4Controller * list effect :=
  match event_loop inputs false s with
  | (Done held, s1, t1) => (Waiting held, s1, t1)
  | (Raised e, s1, t1) =>
      if is_KeyboardInterrupt e then
        except_clause (move "stop" ;; emit (Log INFO Terminated)) s1 t1
      else if is_Exception e then
        except_clause (move "stop" ;; emit (Log ERROR (MainLoopError e))) s1 t1
      else (Propagated e, s1, t1)
  end.

End Methods.

(** ** Observations and invariants used by the statements *)

(** The motor commands among some effects, in order. *)
Definition commands (t : list effect) : list (num * num) :=
  omap (λ x, match x with RobotValue v => Some v | _ => None end) t.

(** The effects on the robot and on time: everything but the log. *)
Definition actuation (t : list effect) : list effect :=
  omap (λ x, match x with Log _ _ => None | _ => Some x end) t.

(** The telemetry records: the durations logged at a change of direction. *)
Definition telemetry (t : list effect) : list (string * Z) :=
  omap (λ x, match x with
             | Log INFO (MovingFor d duration) => Some (d, duration)
             | _ => None
             end) t.

Definition STOP : num * num := (PyInt 0, PyInt 0).

(** The speed types that [modify_speed] passes to its helper. *)
Definition speed_types : list string := ["slow"; "fast"; "super"].

(** [self.SLOW], [self.FAST] or [self.SUPER], by speed type. *)
Definition magnitude (s : PS4Controller) (speed_type : string) : float :=
  if String.eqb speed_type "slow" then SLOW s
  else if String.eqb speed_type "fast" then FAST s
  else SUPER s.

(** A direction has a start time. *)
Definition timed (s : PS4Controller) : Prop :=
  is_Some (current_direction s) → is_Some (direction_start_time s).

(** The three speed flags exist. *)
Definition tiered (s : PS4Controller) : Prop :=
  ∀ speed_type, speed_type ∈ speed_types →
    is_Some (variable_speed_map s !! speed_type).

(** The state reached when a sequence of speed types is toggled in turn. *)
Definition toggle_all (speed_types : list string) (s : PS4Controller)
  : PS4Controller :=
  foldl (λ s speed_type, (modify_speed_helper speed_type s).1.2) s speed_types.


(** The press and the release of a button, as [handle_key_event] tells them
    apart. *)
Definition is_press (event : evdev.InputEvent) : bool :=
  (evdev.type event =? evdev.ecodes.EV_KEY) && (evdev.value event =? 1).

Definition is_release (event : evdev.InputEvent) : bool :=
  (evdev.type event =? evdev.ecodes.EV_KEY) && (evdev.value event =? 0).

(** The buttons that are down on the gamepad: a press adds its button, a
    release takes it away, any other event leaves them. *)
Definition press_or_release (down : gset Z) (event : evdev.InputEvent)
  : gset Z :=
  if is_press event then {[evdev.code event]} ∪ down
  else if is_release event then down ∖ {[evdev.code event]}
  else down.

(** The buttons that are down after a sequence of events that began with
    none down. *)
Definition buttons_down (events : list evdev.InputEvent) : gset Z :=
  foldl press_or_release ∅ events.

(** The event on which [handle_key_event] raises [KeyboardInterrupt]: the
    release of the key with code 307, the triangle. *)
Definition is_exit (event : evdev.InputEvent) : bool :=
  (evdev.type event =? evdev.ecodes.EV_KEY)
  && (evdev.value event =? 0) && (evdev.code event =? 307).

Section Runs.

Variable clock : nat → Z.

(** The start time is a past reading of the clock. *)
Definition chronological (s : PS4Controller) : Prop :=
  ∀ start, direction_start_time s = Some start →
    ∃ i, (i < ticks s)%nat ∧ start = clock i.

(** The assignments of [move] when the direction changes, with the time
    read in between. *)
Definition started (d : string) (s : PS4Controller) : PS4Controller :=
  set_direction_start_time (clock (ticks s)) (tick (set_current_direction d s)).

(** The last two effects of every [move]. *)
Definition shown (d : string) (s : PS4Controller) : list effect :=
  [ Log DEBUG (Moving d);
    RobotValue (default (PyInt 0, PyInt 0) (directions s !! d)) ].

(** How the assignment to the robot at the end of [move d] goes. *)
Definition sent (d : string) (s : PS4Controller) : outcome unit :=
  if command_in_range (default (PyInt 0, PyInt 0) (directions s !! d))
  then Done tt else Raised OutputDeviceBadValue.

(** The state after [move d] and its effects, in a [timed] state. *)
Definition moved (d : string) (s : PS4Controller) : PS4Controller :=
  match current_direction s with
  | None => started d s
  | Some old => if bool_decide (old = d) then s else started d (tick s)
  end.

Definition told (d : string) (s : PS4Controller) : list effect :=
  match current_direction s, direction_start_time s with
  | Some old, Some start =>
      if bool_decide (old = d) then shown d s
      else Log INFO (MovingFor old (clock (ticks s) - start)) :: shown d s
  | _, _ => shown d s
  end.

(** The operations of the controller, and the states they reach from the
    state that [__init__] builds. *)
Inductive operation : Type :=
| Move (direction : string)
| Spin (direction : string)
| ModifySpeed (event_code : Z)
| ModifySpeedHelper (speed_type : string)
| HandleKeyEvent (event : evdev.InputEvent) (button_is_held : bool)
| HandleAbsEvent (absevent : evdev.InputEvent) (button_is_held : bool)
| Main (inputs : list input).

(** The state an operation leaves, whether it returns or raises. *)
Definition perform (op : operation) (s : PS4Controller) : PS4Controller :=
  match op with
  | Move d => (move clock d s).1.2
  | Spin d => (spin clock d s).1.2
  | ModifySpeed c => (modify_speed c s).1.2
  | ModifySpeedHelper t => (modify_speed_helper t s).1.2
  | HandleKeyEvent ev held => (handle_key_event clock ev held s).1.2
  | HandleAbsEvent ev held => (handle_abs_event clock ev held s).1.2
  | Main inputs => (main clock inputs s).1.2
  end.

Inductive reachable (cfg : Config) : PS4Controller → Prop :=
| reachable_init : reachable cfg (init cfg)
| reachable_step s op :
    reachable cfg s → reachable cfg (perform op s).

End Runs.

(** A method keeps an invariant of the state, whether it returns or raises. *)
Definition preserves (I : PS4Controller → Prop) {A} (m : M A) : Prop :=
  ∀ s, I s → I (m s).1.2.

(** Sample inputs: key and axis events as [read_loop] delivers them, and a
    clock that advances by one unit at every reading. *)
Definition key_event (event_code event_value : Z) : evdev.InputEvent :=
  {| evdev.type := evdev.ecodes.EV_KEY;
     evdev.code := event_code;
     evdev.value := event_value |}.

Definition press (event_code : Z) : evdev.InputEvent := key_event event_code 1.
Definition release (event_code : Z) : evdev.InputEvent := key_event event_code 0.

Definition axis_event (event_value : Z) : evdev.InputEvent :=
  {| evdev.type := evdev.ecodes.EV_ABS;
     evdev.code := evdev.ecodes.ABS_X;
     evdev.value := event_value |}.

Definition ticking (n : nat) : Z := Z.of_nat n.

(** The configuration with [SUPER_SPEED=1.0] in the environment. *)
Definition full_speed_config : Config := {|
  LEFT_MOTOR_SPEED := 0.5;
  RIGHT_MOTOR_SPEED := 0.51;
  SLOW_SPEED := 0.25;
  NORMAL_SPEED := 0.5;
  FAST_SPEED := 0.75;
  SUPER_SPEED := 1.0;
  CFG_HIGH_DEADZONE := 150;
  CFG_LOW_DEADZONE := 100
|}.

(** A clock that is set back after its first reading: 10, then 5, then 7
    from there on. *)
Definition set_back (n : nat) : Z :=
  match n with
  | O => 10
  | S O => 5
  | _ => 7
  end.

(** ** The range of the motor driver *)

(** A pair of motor speeds whose four signed commands are in range. *)
Definition pair_in_range (l r : float) : bool :=
  command_in_range (PyFloat (- l), PyFloat (- r))
  && command_in_range (PyFloat l, PyFloat r)
  && command_in_range (PyFloat (- l), PyFloat r)
  && command_in_range (PyFloat l, PyFloat (- r)).

(** The current speeds, and the speeds of the four tiers as
    [modify_speed_helper] would set them, are in range. *)
Definition speeds_in_range (s : PS4Controller) : bool :=
  pair_in_range (leftmotorspeed s) (rightmotorspeed s)
  && pair_in_range (SLOW s) (SLOW s + 0.01)
  && pair_in_range (NORMAL s) (NORMAL s + 0.01)
  && pair_in_range (FAST s) (FAST s + 0.01)
  && pair_in_range (SUPER s) (SUPER s + 0.01).

(** The directions that [move] has a command for. *)
Definition known_directions : list string :=
  ["forward"; "backward"; "left"; "right"; "sharp_left"; "sharp_right"; "stop"].

(** A method keeps an invariant of the state and only has effects of some
    kind, whether it returns or raises. *)
Definition keeps (I : PS4Controller → Prop) (G : effect → Prop) {A} (m : M A)
  : Prop :=
  ∀ s, I s → I (m s).1.2 ∧ Forall G (m s).2.

(** The flags of the speed types are those of [__init__], each 0 or 1. *)
Definition flags_wellformed (s : PS4Controller) : Prop :=
  dom (variable_speed_map s) = list_to_set speed_types ∧
  ∀ speed_type flag, variable_speed_map s !! speed_type = Some flag →
    flag = 0 ∨ flag = 1.

(** An event that the loop of [main] passes over: neither a key event nor an
    event of the horizontal axis. *)
Definition passed_over (event : evdev.InputEvent) : bool :=
  negb (evdev.type event =? evdev.ecodes.EV_KEY)
  && negb ((evdev.type event =? evdev.ecodes.EV_ABS)
           && (evdev.code event =? evdev.ecodes.ABS_X)).

(** An input on which the loop of [main] is left: a failed read, or the
    exit event. *)
Definition ends_session (x : input) : bool :=
  match x with
  | ReadFails _ => true
  | Event event => is_exit event
  end.

(** The pairs of motor speeds that a run from [init cfg] can set: the
    configured start pair, and the pair of each tier. *)
Definition speed_pairs (cfg : Config) : list (float * float) :=
  [ (LEFT_MOTOR_SPEED cfg, RIGHT_MOTOR_SPEED cfg);
    (SLOW_SPEED cfg, (SLOW_SPEED cfg + 0.01)%float);
    (NORMAL_SPEED cfg, (NORMAL_SPEED cfg + 0.01)%float);
    (FAST_SPEED cfg, (FAST_SPEED cfg + 0.01)%float);
    (SUPER_SPEED cfg, (SUPER_SPEED cfg + 0.01)%float) ].

(** The state has the constants of the configuration, and its motor speeds
    are one of the pairs above. *)
Definition speeds_from (cfg : Config) (s : PS4Controller) : Prop :=
  SLOW s = SLOW_SPEED cfg ∧ NORMAL s = NORMAL_SPEED cfg ∧
  FAST s = FAST_SPEED cfg ∧ SUPER s = SUPER_SPEED cfg ∧
  HIGH_DEADZONE s = CFG_HIGH_DEADZONE cfg ∧
  LOW_DEADZONE s = CFG_LOW_DEADZONE cfg ∧
  (leftmotorspeed s, rightmotorspeed s) ∈ speed_pairs cfg.

(** ** The other modules: [robot_utils.py] and [ps_button_monitor.py] *)

(** [needle in haystack] on strings. *)
Fixpoint contains (needle haystack : string) : bool :=
  String.prefix needle haystack ||
  match haystack with
  | EmptyString => false
  | String _ rest => contains needle rest
  end.

(** [robot_utils.py].  Its functions have no state of their own.  They act
    on the outside world, recorded as a list of [action]s, and what the
    world answers is given: the completed process of each shell command,
    and the outcome of each scan of the input devices. *)
Module robot_utils.

(** What [subprocess.run(..., capture_output=True, text=True)] returns. *)
Record CompletedProcess : Type :=
  { returncode : Z; stdout : string; stderr : string }.

Record InputDevice : Type := { path : string; name : string }.

(** The methods of the logger that are called. *)
Inductive method : Type := info | warning | error.

Inductive action : Type :=
| Ran (command : string)                   (* subprocess.run(command, shell=True) *)
| Logged (m : method) (message : string)   (* logger.<m>(message) *)
| Slept (seconds : Z)                      (* time.sleep(seconds) *)
| Spawned (argv : list string).            (* subprocess.Popen(argv) *)

(** A call that returns, or raises [RuntimeError(message)]. *)
Inductive attempt (A : Type) : Type :=
| Ok (a : A)
| RuntimeError (message : string).
Arguments Ok {A} a.
Arguments RuntimeError {A} message.

Definition U (A : Type) : Type := attempt A * list action.

Definition unit_U {A} (a : A) : U A := (Ok a, []).

Definition bind_U {A B} (m : U A) (k : A → U B) : U B :=
  match m with
  | (Ok a, t1) => match k a with (r, t2) => (r, t1 ++ t2) end
  | (RuntimeError message, t1) => (RuntimeError message, t1)
  end.

Definition log (m : method) (message : string) : U unit :=
  (Ok tt, [Logged m message]).

(** [try: body / except Exception as e: handler(str(e)); raise] *)
Definition try_except_raise {A} (body : U A) (handler : string → U unit)
  : U A :=
  match body with
  | (Ok a, t1) => (Ok a, t1)
  | (RuntimeError message, t1) =>
      match handler message with
      | (Ok _, t2) => (RuntimeError message, t1 ++ t2)
      | (RuntimeError message', t2) => (RuntimeError message', t1 ++ t2)
      end
  end.

Declare Scope utils_scope.
Delimit Scope utils_scope with utils.
Notation "x <- m ;; k" := (bind_U m (λ x, k))
  (at level 100, m at next level, right associativity) : utils_scope.
Notation "m ;; k" := (bind_U m (λ _, k))
  (at level 100, right associativity) : utils_scope.
#[local] Open Scope utils_scope.

Section Shell.

(** The completed process of each command. *)
Variable shell : string → CompletedProcess.

Definition run_command (command : string) : U string :=
  let result := shell command in
  if negb (returncode result =? 0) then
    (RuntimeError ("Error: " +:+ stderr result), [Ran command])
  else (Ok (stdout result), [Ran command]).

Definition ensure_device_connected (mac_address : string) : U unit :=
  log info "Connecting to controller..." ;;
  try_except_raise
    (device_info <- run_command ("bluetoothctl info " +:+ mac_address) ;;
     if contains "Connected: no" device_info then
       run_command ("bluetoothctl connect " +:+ mac_address) ;;
       run_command ("bluetoothctl trust " +:+ mac_address) ;;
       unit_U tt
     else unit_U tt)
    (λ e, log error ("Error connecting to device: " +:+ e)).

End Shell.

(** One pass of [find_controller] over the input devices: the list that
    the comprehension over [evdev.list_devices()] builds, with the message
    of the exception, if any, that opening the chosen device again raises;
    or the message of the exception raised while the list is built. *)
Inductive scan : Type :=
| Listed (devices : list InputDevice) (reopen_error : option string)
| Unlisted (message : string).

(** How a call of [find_controller] stands after the scans made so far. *)
Inductive search : Type :=
| Found (device_path : string)   (* returned [InputDevice(device_path)] *)
| Exits (code : Z)               (* raised [SystemExit(code)] *)
| Searching.                     (* in the next scan *)

(** The [for] loop over the devices. *)
Fixpoint examine (devices : list InputDevice)
  : option InputDevice * list action :=
  match devices with
  | [] => (None, [])
  | device :: rest =>
      let seen :=
        Logged info
          ("Device found: " +:+ path device +:+ " - " +:+ name device) in
      if contains "Wireless Controller" (name device) then
        (Some device, [seen; Logged info "PS4 controller connected."])
      else
        match examine rest with (r, t) => (r, seen :: t) end
  end.

(** [find_controller], by recursion as in the source, over the scans that
    the calls make in turn.  An exception derived from [Exception] in the
    [try] block is logged and turned into [SystemExit(1)]; the [SystemExit]
    of a nested call is no such exception and passes through.

    The interpreter bounds the depth of the recursion: [depth] is the
    number of nested calls that it still allows.  The call beyond them
    raises [RecursionError], whose text is [recursion_error], in the [try]
    block of its caller; it is derived from [Exception], so the caller
    logs it and raises [SystemExit(1)]. *)
Fixpoint find_controller (recursion_error : string) (depth : nat)
  (scans : list scan) {struct scans} : search * list action :=
  let begun := Logged info "Finding controller..." in
  let failed (message : string) (t : list action) :=
    (Exits 1,
     begun :: t ++ [Logged error ("Error finding PS4 controller: " +:+ message)])
  in
  match scans with
  | [] => (Searching, [begun])
  | Unlisted message :: _ => failed message []
  | Listed devices reopen_error :: rest =>
      match examine devices with
      | (Some device, t) =>
          match reopen_error with
          | None => (Found (path device), begun :: t)
          | Some message => failed message t
          end
      | (None, t) =>
          match depth with
          | O =>
              failed recursion_error
                (t ++ [Logged warning "PS4 controller not found. Retrying...";
                       Slept 2])
          | S depth' =>
              match find_controller recursion_error depth' rest with
              | (r, t') =>
                  (r, begun :: t
                      ++ [Logged warning "PS4 controller not found. Retrying...";
                          Slept 2]
                      ++ t')
              end
          end
      end
  end.

(** The shell commands among some actions, in order. *)
Definition ran (t : list action) : list string :=
  omap (λ x, match x with Ran command => Some command | _ => None end) t.

(** The processes started among some actions, in order. *)
Definition spawned (t : list action) : list (list string) :=
  omap (λ x, match x with Spawned argv => Some argv | _ => None end) t.

(** The seconds slept among some actions, in order. *)
Definition slept (t : list action) : list Z :=
  omap (λ x, match x with Slept seconds => Some seconds | _ => None end) t.

(** A device that [find_controller] takes for the controller. *)
Definition is_controller (device : InputDevice) : bool :=
  contains "Wireless Controller" (name device).

(** A scan that lists devices, none of them the controller. *)
Definition fruitless (s : scan) : bool :=
  match s with
  | Listed devices _ => forallb (λ d, negb (is_controller d)) devices
  | Unlisted _ => false
  end.

(** The number of fruitless scans before the first scan of another kind. *)
Fixpoint fruitless_scans (scans : list scan) : nat :=
  match scans with
  | [] => 0
  | s :: rest => if fruitless s then S (fruitless_scans rest) else 0
  end.

End robot_utils.

(** [ps_button_monitor.py] *)
Module ps_button_monitor.

Import robot_utils.

Definition PS4_CONTROLLER_SCRIPT : string := "robot_controller.py".
Definition PS_BUTTON_CODE : Z := 316.

(** [subprocess.Popen] either starts the process or raises. *)
Definition run_ps4_controller_script (popen_error : option exn)
  : option exn * list action :=
  match popen_error with
  | None => (None, [Spawned ["python3"; PS4_CONTROLLER_SCRIPT]])
  | Some e => (Some e, [])
  end.

(** The test of the [for] loop. *)
Definition is_ps_press (event : evdev.InputEvent) : bool :=
  (evdev.type event =? evdev.ecodes.EV_KEY)
  && (evdev.value event =? 1)
  && (evdev.code event =? PS_BUTTON_CODE).

(** How the [for] loop over [controller.read_loop()] stands after the
    inputs delivered so far. *)
Inductive watch : Type :=
| Launched               (* the script was started, the loop left by [break] *)
| Awaiting               (* in the next read *)
| Failed (e : exn).      (* [e] was raised, by a read or by [Popen] *)

Fixpoint for_event_in_read_loop (inputs : list input)
  (popen_error : option exn) : watch * list action :=
  match inputs with
  | [] => (Awaiting, [])
  | ReadFails e :: _ => (Failed e, [])
  | Event event :: rest =>
      if is_ps_press event then
        let pressed :=
          Logged info "PS button pressed. Starting PS4 controller script..." in
        match run_ps4_controller_script popen_error with
        | (None, t) => (Launched, pressed :: t)
        | (Some e, t) => (Failed e, pressed :: t)
        end
      else for_event_in_read_loop rest popen_error
  end.

(** What one turn of the [while] loop meets: the scans of its call of
    [find_controller], the inputs that the device it opens delivers, and
    whether [Popen] fails. *)
Record turn : Type :=
  { scans : list scan; inputs : list input; popen_error : option exn }.

(** How [main] stands after the turns so far; it has no way to return. *)
Inductive status : Type :=
| Blocked              (* in a scan or in a read *)
| Exited (code : Z)    (* [SystemExit(code)] left [main] *)
| Crashed (e : exn).   (* [e] left [main] *)

(** [main].  [find_controller] returns an [InputDevice], which is true as a
    condition, or does not return: the [else] branch is never taken.  Each
    turn calls [find_controller] from the same frame, with the same [depth]
    of recursion left. *)
Fixpoint main (recursion_error : string) (depth : nat) (turns : list turn)
  : status * list action :=
  match turns with
  | [] => (Blocked, (find_controller recursion_error depth []).2)
  | turn :: rest =>
      match find_controller recursion_error depth (scans turn) with
      | (Found _, t) =>
          let monitoring :=
            Logged info
              "PS4 controller connected. Monitoring for PS button press..." in
          match for_event_in_read_loop (inputs turn) (popen_error turn) with
          | (Launched, t') =>
              match main recursion_error depth rest with
              | (st, t'') => (st, t ++ monitoring :: t' ++ t'')
              end
          | (Awaiting, t') => (Blocked, t ++ monitoring :: t')
          | (Failed e, t') => (Crashed e, t ++ monitoring :: t')
          end
      | (Exits c, t) => (Exited c, t)
      | (Searching, t) => (Blocked, t)
      end
  end.

(** A turn in which the controller is found and the PS button pressed, and
    the script starts. *)
Definition completes (recursion_error : string) (depth : nat) (t : turn)
  : bool :=
  match find_controller recursion_error depth (scans t) with
  | (Found _, _) =>
      match for_event_in_read_loop (inputs t) (popen_error t) with
      | (Launched, _) => true
      | _ => false
      end
  | _ => false
  end.

(** The number of presses of the PS button among some inputs. *)
Definition ps_presses (inputs : list input) : nat :=
  length
    (omap (λ x, match x with
                | Event event => if is_ps_press event then Some event else None
                | ReadFails _ => None
                end) inputs).

End ps_button_monitor.

(** ** Basic facts *)

Lemma key_map_keys :
  key "x" = 304 ∧ key "square" = 308 ∧ key "triangle" = 307 ∧
  key "circle" = 305 ∧ key "lt" = 312 ∧ key "lb" = 310 ∧
  key "rt" = 313 ∧ key "rb" = 311.
Proof. repeat split; reflexivity. Qed.


Lemma bind_Raised {A B} (m : M A) (k : A → M B) s e s1 t1 :
  m s = (Raised e, s1, t1) → bind m k s = (Raised e, s1, t1).
Proof. intros H. unfold bind. by rewrite H. Qed.

Lemma bind_get {A} (k : PS4Controller → M A) s : bind get k s = k s s.
Proof. unfold bind, get. by destruct (k s s) as [[o s2] t2]. Qed.

Lemma init_timed cfg : timed (init cfg).
Proof. intros [d Hd]. discriminate Hd. Qed.

Lemma init_tiered cfg : tiered (init cfg).
Proof.
  intros t Ht. unfold speed_types in Ht.
  repeat (apply elem_of_cons in Ht as [->|Ht]; [by eexists|]).
  by apply elem_of_nil in Ht.
Qed.

Section MoveFacts.

Variable clock : nat → Z.

Lemma robot_value_sent d s s' :
  directions s' = directions s →
  robot_value (default (PyInt 0, PyInt 0) (directions s' !! d)) s'
  = (sent d s, s', [RobotValue (default (PyInt 0, PyInt 0) (directions s !! d))]).
Proof.
  intros ->. unfold robot_value, sent, bind, emit, ret, raise.
  by destruct (command_in_range _).
Qed.

(** The end of every call of [move]. *)
Lemma move_tail d s s' :
  directions s' = directions s →
  (emit (Log DEBUG (Moving d)) ;;
   s0 <- get ;;
   robot_value (default (PyInt 0, PyInt 0) (directions s0 !! d))) s'
  = (sent d s, s', shown d s).
Proof.
  intros H. unfold bind at 1 2. unfold emit at 1, get.
  by rewrite (robot_value_sent d s s' H).
Qed.

Lemma move_same d s :
  current_direction s = Some d →
  move clock d s = (sent d s, s, shown d s).
Proof.
  intros H. unfold move. unfold bind at 1 2. unfold get at 1. rewrite H.
  rewrite bool_decide_eq_false_2 by (intros X; by apply X).
  unfold ret at 1. by rewrite (move_tail d s s).
Qed.

Lemma move_first d s :
  current_direction s = None →
  move clock d s = (sent d s, started clock d s, shown d s).
Proof.
  intros H. unfold move. unfold bind at 1 2. unfold get at 1. rewrite H.
  rewrite bool_decide_eq_true_2 by done.
  change ((ret tt ;; modify (set_current_direction d) ;;
           now <- time_time clock ;; modify (set_direction_start_time now)) s)
    with (@Done unit tt, started clock d s, @nil effect).
  cbv beta iota. by rewrite (move_tail d s (started clock d s)).
Qed.

Lemma move_change d s old start :
  current_direction s = Some old → old ≠ d →
  direction_start_time s = Some start →
  move clock d s =
    (sent d s, started clock d (tick s),
     Log INFO (MovingFor old (clock (ticks s) - start)) :: shown d s).
Proof.
  intros H Hne Hs. unfold move. unfold bind at 1 2. unfold get at 1.
  rewrite H. rewrite bool_decide_eq_true_2 by congruence.
  assert (((duration <- elapsed clock ;;
            emit (Log INFO (MovingFor old duration))) ;;
           modify (set_current_direction d) ;;
           now <- time_time clock ;; modify (set_direction_start_time now)) s
          = (Done tt, started clock d (tick s),
             [Log INFO (MovingFor old (clock (ticks s) - start))])) as ->.
  { unfold elapsed, bind, get, time_time. simpl. rewrite Hs. reflexivity. }
  cbv beta iota. by rewrite (move_tail d s (started clock d (tick s))).
Qed.

Lemma move_untimed d s old :
  current_direction s = Some old → old ≠ d →
  direction_start_time s = None →
  move clock d s = (Raised TypeError, tick s, []).
Proof.
  intros H Hne Hs. unfold move. unfold bind at 1 2. unfold get at 1.
  rewrite H. rewrite bool_decide_eq_true_2 by congruence.
  assert (((duration <- elapsed clock ;;
            emit (Log INFO (MovingFor old duration))) ;;
           modify (set_current_direction d) ;;
           now <- time_time clock ;; modify (set_direction_start_time now)) s
          = (Raised TypeError, tick s, [])) as ->.
  { unfold elapsed, bind, get, time_time. simpl. rewrite Hs. reflexivity. }
  reflexivity.
Qed.

(** In a [timed] state [move] makes its assignments, and [moved], [told]
    and [sent] describe it. *)
Lemma move_timed d s :
  timed s → move clock d s = (sent d s, moved clock d s, told clock d s).
Proof.
  intros Ht. unfold moved, told.
  destruct (current_direction s) as [old|] eqn:Hc.
  - destruct Ht as [start Hs]; [by eexists|]. rewrite Hs.
    case_bool_decide as Hd.
    + subst old. by apply move_same.
    + by apply move_change.
  - rewrite move_first by done. by destruct (direction_start_time s).
Qed.

(** The directions whose command the driver always accepts. *)
Lemma sent_stop s : sent "stop" s = Done tt.
Proof. reflexivity. Qed.

Lemma sent_sharp_right s : sent "sharp_right" s = Done tt.
Proof. reflexivity. Qed.

Lemma sent_sharp_left s : sent "sharp_left" s = Done tt.
Proof. reflexivity. Qed.

Lemma moved_direction d s : current_direction (moved clock d s) = Some d.
Proof.
  unfold moved. destruct (current_direction s) as [old|] eqn:Hc; [|done].
  case_bool_decide; [congruence|done].
Qed.

Lemma moved_timed d s : timed s → timed (moved clock d s).
Proof.
  intros Ht. unfold moved.
  destruct (current_direction s) as [old|] eqn:Hc.
  - case_bool_decide; [done|]. intros _. by eexists.
  - intros _. by eexists.
Qed.

Lemma moved_speeds d s :
  leftmotorspeed (moved clock d s) = leftmotorspeed s ∧
  rightmotorspeed (moved clock d s) = rightmotorspeed s ∧
  variable_speed_map (moved clock d s) = variable_speed_map s.
Proof.
  unfold moved. destruct (current_direction s) as [old|]; [|done].
  by case_bool_decide.
Qed.

Lemma commands_told d s :
  commands (told clock d s) = [default STOP (directions s !! d)].
Proof.
  unfold told.
  destruct (current_direction s), (direction_start_time s);
    try case_bool_decide; reflexivity.
Qed.

Lemma actuation_told d s :
  actuation (told clock d s) = [RobotValue (default STOP (directions s !! d))].
Proof.
  unfold told.
  destruct (current_direction s), (direction_start_time s);
    try case_bool_decide; reflexivity.
Qed.

Lemma directions_moved d s : directions (moved clock d s) = directions s.
Proof.
  unfold moved. destruct (current_direction s) as [old|]; [|done].
  by case_bool_decide.
Qed.

(** The four ways a call of [move] can go. *)
Lemma move_cases d s :
  move clock d s = (sent d s, moved clock d s, told clock d s) ∨
  (∃ old, current_direction s = Some old ∧ old ≠ d ∧
          direction_start_time s = None ∧
          move clock d s = (Raised TypeError, tick s, [])).
Proof.
  destruct (current_direction s) as [old|] eqn:Hc.
  - destruct (direction_start_time s) as [start|] eqn:Hs.
    + left. apply move_timed. intros _. by eexists.
    + destruct (decide (old = d)) as [->|Hne].
      * left. rewrite move_same by done. unfold moved, told.
        rewrite Hc, Hs. by rewrite bool_decide_eq_true_2.
      * right. exists old. by rewrite (move_untimed d s old).
  - left. rewrite move_first by done. unfold moved, told. by rewrite Hc.
Qed.

End MoveFacts.

(** ** Invariants of the state are kept by every method *)

Section Preservation.

Variable clock : nat → Z.
Variable I : PS4Controller → Prop.

Lemma preserves_ret {A} (a : A) : preserves I (ret a).
Proof. by intros s Hs. Qed.

Lemma preserves_raise {A} e : preserves I (@raise A e).
Proof. by intros s Hs. Qed.

Lemma preserves_emit x : preserves I (emit x).
Proof. by intros s Hs. Qed.

Lemma preserves_get : preserves I get.
Proof. by intros s Hs. Qed.

Lemma preserves_modify f : (∀ s, I s → I (f s)) → preserves I (modify f).
Proof. intros Hf s Hs. by apply Hf. Qed.

Lemma preserves_bind {A B} (m : M A) (k : A → M B) :
  preserves I m → (∀ a, preserves I (k a)) → preserves I (bind m k).
Proof.
  intros Hm Hk s Hs. unfold bind. specialize (Hm s Hs).
  destruct (m s) as [[[a|e] s1] t1]; simpl in *; [|done].
  specialize (Hk a s1 Hm). by destruct (k a s1) as [[o s2] t2].
Qed.

Hypothesis I_move : ∀ d, preserves I (move clock d).
Hypothesis I_speeds : ∀ l r s, I s → I (set_speeds l r s).
Hypothesis I_flag : ∀ t v s, I s → I (set_flag t v s).

Ltac preserve :=
  repeat match goal with
    | |- preserves _ (move _ _) => apply I_move
    | |- preserves _ (ret _) => apply preserves_ret
    | |- preserves _ (raise _) => apply preserves_raise
    | |- preserves _ (emit _) => apply preserves_emit
    | |- preserves _ get => apply preserves_get
    | |- preserves _ (modify _) => apply preserves_modify; intros; auto
    | |- preserves _ (bind _ _) => apply preserves_bind; [|intros ?]
    | |- preserves _ (if ?b then _ else _) => destruct b
    | |- preserves _ (match ?x with _ => _ end) => destruct x
    end.

Lemma preserves_spin d : preserves I (spin clock d).
Proof. unfold spin. preserve. Qed.

Lemma preserves_modify_speed_helper t : preserves I (modify_speed_helper t).
Proof. unfold modify_speed_helper. preserve. Qed.

Lemma preserves_modify_speed c : preserves I (modify_speed c).
Proof.
  unfold modify_speed. preserve; apply preserves_modify_speed_helper.
Qed.

Lemma preserves_handle_key_event ev held :
  preserves I (handle_key_event clock ev held).
Proof.
  unfold handle_key_event.
  preserve; first [apply preserves_spin | apply preserves_modify_speed].
Qed.

Lemma preserves_handle_abs_event ev held :
  preserves I (handle_abs_event clock ev held).
Proof. unfold handle_abs_event. preserve. Qed.

Lemma preserves_event_loop inputs :
  ∀ held, preserves I (event_loop clock inputs held).
Proof.
  induction inputs as [|[ev|e] rest IH]; intros held; simpl.
  - apply preserves_ret.
  - apply preserves_bind; [|intros ?; apply IH].
    preserve;
      first [apply preserves_handle_key_event
            | apply preserves_handle_abs_event].
  - apply preserves_raise.
Qed.

Lemma preserves_except_clause (handler : M unit) s1 t1 :
  preserves I handler → I s1 → I (except_clause handler s1 t1).1.2.
Proof.
  intros Hh Hs. unfold except_clause. specialize (Hh s1 Hs).
  by destruct (handler s1) as [[[[]|e] s2] t2].
Qed.

Lemma preserves_main inputs s : I s → I (main clock inputs s).1.2.
Proof.
  intros Hs. unfold main.
  pose proof (preserves_event_loop inputs false s Hs) as H1.
  destruct (event_loop clock inputs false s) as [[[h|e] s1] t1]; simpl in *;
    [done|].
  destruct (is_KeyboardInterrupt e); [|destruct (is_Exception e)];
    try done; apply preserves_except_clause; try done; preserve.
Qed.

Lemma preserves_perform op s : I s → I (perform clock op s).
Proof.
  destruct op; simpl; intros Hs.
  - by apply I_move.
  - by apply preserves_spin.
  - by apply preserves_modify_speed.
  - by apply preserves_modify_speed_helper.
  - by apply preserves_handle_key_event.
  - by apply preserves_handle_abs_event.
  - by apply preserves_main.
Qed.

Lemma reachable_invariant cfg s :
  I (init cfg) → reachable clock cfg s → I s.
Proof.
  intros Hi Hr. induction Hr as [|s op Hr IH]; [done|].
  by apply preserves_perform.
Qed.

End Preservation.

Section Invariants.

Variable clock : nat → Z.

Lemma move_preserves_timed d : preserves timed (move clock d).
Proof.
  intros s Hs. rewrite move_timed by done. by apply moved_timed.
Qed.

Lemma move_preserves_tiered d : preserves tiered (move clock d).
Proof.
  intros s Hs. destruct (move_cases clock d s) as [->|(old&_&_&_&->)]; simpl.
  - intros t Ht. destruct (moved_speeds clock d s) as (_&_&->). by apply Hs.
  - done.
Qed.

Lemma set_flag_tiered t v s : tiered s → tiered (set_flag t v s).
Proof.
  intros Hs t' Ht'. simpl. destruct (decide (t = t')) as [->|Hne].
  - rewrite lookup_insert_eq. by eexists.
  - rewrite lookup_insert_ne by done. by apply Hs.
Qed.

Lemma move_preserves_chronological d :
  preserves (chronological clock) (move clock d).
Proof.
  intros s Hs. destruct (move_cases clock d s) as [->|(old&_&_&_&->)]; simpl.
  - unfold moved. destruct (current_direction s) as [old|].
    + case_bool_decide; [done|]. intros start [= <-]. simpl.
      exists (S (ticks s)). split; [lia|done].
    + intros start [= <-]. simpl. exists (ticks s). split; [lia|done].
  - intros start Hstart. simpl in *. destruct (Hs start Hstart) as (i&Hi&->).
    exists i. split; [lia|done].
Qed.

Lemma reachable_timed cfg s : reachable clock cfg s → timed s.
Proof.
  intros Hr.
  refine (reachable_invariant clock timed _ _ _ cfg s _ Hr); try done.
  - apply move_preserves_timed.
  - apply init_timed.
Qed.

Lemma reachable_tiered cfg s : reachable clock cfg s → tiered s.
Proof.
  intros Hr.
  refine (reachable_invariant clock tiered _ _ _ cfg s _ Hr); try done.
  - apply move_preserves_tiered.
  - apply set_flag_tiered.
  - apply init_tiered.
Qed.

Lemma reachable_chronological cfg s :
  reachable clock cfg s → chronological clock s.
Proof.
  intros Hr.
  refine (reachable_invariant clock (chronological clock) _ _ _ cfg s _ Hr);
    try done.
  apply move_preserves_chronological.
Qed.

End Invariants.

(** ** Sessions: what every method keeps and emits *)

Section Keeping.

Variable clock : nat → Z.
Variable I : PS4Controller → Prop.
Variable G : effect → Prop.

Lemma keeps_ret {A} (a : A) : keeps I G (ret a).
Proof. intros s Hs. by split. Qed.

Lemma keeps_raise {A} e : keeps I G (@raise A e).
Proof. intros s Hs. by split. Qed.

Lemma keeps_get : keeps I G get.
Proof. intros s Hs. by split. Qed.

Lemma keeps_emit x : G x → keeps I G (emit x).
Proof. intros Hx s Hs. split; [done|]. by apply Forall_singleton. Qed.

Lemma keeps_bind {A B} (m : M A) (k : A → M B) :
  keeps I G m → (∀ a, keeps I G (k a)) → keeps I G (bind m k).
Proof.
  intros Hm Hk s Hs. unfold bind. destruct (Hm s Hs) as [H1 H2].
  destruct (m s) as [[[a|e] s1] t1]; simpl in *; [|done].
  destruct (Hk a s1 H1) as [H3 H4].
  destruct (k a s1) as [[o s2] t2]; simpl in *.
  split; [done|]. by apply Forall_app.
Qed.

(** The directions and speed types that the handlers pass on. *)
Hypothesis K_move : ∀ d, d ∈ known_directions → keeps I G (move clock d).
Hypothesis K_helper :
  ∀ t, t ∈ speed_types → keeps I G (modify_speed_helper t).
Hypothesis G_log :
  ∀ lv m, (∀ d duration, m ≠ MovingFor d duration) →
          (∀ d, m ≠ Moving d) → G (Log lv m).
Hypothesis G_sleep : ∀ seconds, G (Sleep seconds).

Ltac keep :=
  repeat match goal with
    | |- keeps _ _ (move _ _) =>
        apply K_move; unfold known_directions;
        repeat (apply elem_of_cons; first [left; reflexivity | right])
    | |- keeps _ _ (modify_speed_helper _) =>
        apply K_helper; unfold speed_types;
        repeat (apply elem_of_cons; first [left; reflexivity | right])
    | |- keeps _ _ (ret _) => apply keeps_ret
    | |- keeps _ _ (raise _) => apply keeps_raise
    | |- keeps _ _ get => apply keeps_get
    | |- keeps _ _ (emit (Sleep _)) => apply keeps_emit, G_sleep
    | |- keeps _ _ (emit (Log _ _)) => apply keeps_emit, G_log; discriminate
    | |- keeps _ _ (bind _ _) => apply keeps_bind; [|intros ?]
    | |- keeps _ _ (if ?b then _ else _) => destruct b
    | |- keeps _ _ (spin _ (if ?b then _ else _)) => destruct b
    end.

Lemma keeps_spin_right : keeps I G (spin clock "right").
Proof. unfold spin. keep. Qed.

Lemma keeps_spin_left : keeps I G (spin clock "left").
Proof. unfold spin. keep. Qed.

Lemma keeps_modify_speed c : keeps I G (modify_speed c).
Proof. unfold modify_speed. keep. Qed.

Lemma keeps_handle_key_event ev held :
  keeps I G (handle_key_event clock ev held).
Proof.
  unfold handle_key_event.
  keep; first [apply keeps_spin_right | apply keeps_spin_left
              | apply keeps_modify_speed].
Qed.

Lemma keeps_handle_abs_event ev held :
  keeps I G (handle_abs_event clock ev held).
Proof. unfold handle_abs_event. keep. Qed.

Lemma keeps_event_loop inputs :
  ∀ held, keeps I G (event_loop clock inputs held).
Proof.
  induction inputs as [|[ev|e] rest IH]; intros held; simpl.
  - apply keeps_ret.
  - apply keeps_bind; [|intros ?; apply IH].
    keep; first [apply keeps_handle_key_event | apply keeps_handle_abs_event].
  - apply keeps_raise.
Qed.

Lemma keeps_except_clause (handler : M unit) s1 t1 :
  keeps I G handler → I s1 → Forall G t1 →
  I (except_clause handler s1 t1).1.2 ∧ Forall G (except_clause handler s1 t1).2.
Proof.
  intros Hh Hs Ht. unfold except_clause. destruct (Hh s1 Hs) as [H1 H2].
  destruct (handler s1) as [[[[]|e] s2] t2]; simpl in *;
    (split; [done|by apply Forall_app]).
Qed.

Lemma keeps_main inputs s :
  I s → I (main clock inputs s).1.2 ∧ Forall G (main clock inputs s).2.
Proof.
  intros Hs. unfold main.
  destruct (keeps_event_loop inputs false s Hs) as [H1 H2].
  destruct (event_loop clock inputs false s) as [[[h|e] s1] t1]; simpl in *;
    [done|].
  destruct (is_KeyboardInterrupt e); [|destruct (is_Exception e)];
    try done; apply keeps_except_clause; try done; keep.
Qed.

End Keeping.

(** ** The speeds that the driver accepts *)

Lemma moved_constants clock d s :
  leftmotorspeed (moved clock d s) = leftmotorspeed s ∧
  rightmotorspeed (moved clock d s) = rightmotorspeed s ∧
  SLOW (moved clock d s) = SLOW s ∧ NORMAL (moved clock d s) = NORMAL s ∧
  FAST (moved clock d s) = FAST s ∧ SUPER (moved clock d s) = SUPER s.
Proof.
  unfold moved. destruct (current_direction s) as [old|]; [|done].
  by case_bool_decide.
Qed.

Lemma speeds_in_range_moved clock d s :
  speeds_in_range (moved clock d s) = speeds_in_range s.
Proof.
  unfold speeds_in_range.
  destruct (moved_constants clock d s) as (-> & -> & -> & -> & -> & ->).
  done.
Qed.

Lemma directions_lookup s d v :
  directions s !! d = Some v →
  v ∈ [ (PyFloat (- leftmotorspeed s), PyFloat (- rightmotorspeed s));
        (PyFloat (leftmotorspeed s), PyFloat (rightmotorspeed s));
        (PyFloat (- leftmotorspeed s), PyFloat (rightmotorspeed s));
        (PyFloat (leftmotorspeed s), PyFloat (- rightmotorspeed s));
        (PyInt 1, PyInt (-1)); (PyInt (-1), PyInt 1); (PyInt 0, PyInt 0) ].
Proof.
  intros H. apply elem_of_list_to_map_2 in H.
  repeat (apply elem_of_cons in H as [[= -> ->]|H];
          [repeat (apply elem_of_cons; first [left; reflexivity | right])|]).
  by apply elem_of_nil in H.
Qed.

Lemma command_of_move_in_range s d :
  speeds_in_range s = true →
  command_in_range (default STOP (directions s !! d)) = true.
Proof.
  unfold speeds_in_range, pair_in_range. rewrite !andb_true_iff.
  intros [[[[[[[H1 H2] H3] H4] _] _] _] _].
  destruct (directions s !! d) as [v|] eqn:E; [|reflexivity].
  apply directions_lookup in E. simpl.
  repeat (apply elem_of_cons in E as [->|E]; [done|]).
  by apply elem_of_nil in E.
Qed.


Lemma move_keeps_range clock d :
  keeps (λ s, speeds_in_range s = true)
    (λ x, ∀ v, x = RobotValue v → command_in_range v = true) (move clock d).
Proof.
  intros s0 H0.
  destruct (move_cases clock d s0) as [->|(old&_&_&_&->)]; simpl.
  - split; [by rewrite speeds_in_range_moved|].
    unfold told, shown.
    destruct (current_direction s0), (direction_start_time s0);
      try case_bool_decide; repeat constructor; try discriminate;
      intros v [= <-]; by apply command_of_move_in_range.
  - by split.
Qed.

Lemma modify_speed_helper_keeps_range t :
  keeps (λ s, speeds_in_range s = true)
    (λ x, ∀ v, x = RobotValue v → command_in_range v = true)
    (modify_speed_helper t).
Proof.
  intros s0 H0. unfold modify_speed_helper, bind, get, modify.
  revert H0. unfold speeds_in_range. rewrite !andb_true_iff.
  intros [[[[H1 H2] H3] H4] H5].
  destruct (variable_speed_map s0 !! t) as [flag|]; [|by repeat split].
  destruct (flag =? 0); simpl; [|by repeat split].
  destruct (String.eqb t "slow"); simpl; [by repeat split|].
  destruct (String.eqb t "fast"); simpl; [by repeat split|].
  destruct (String.eqb t "super"); simpl; by repeat split.
Qed.

(** ** Calls that return *)

Lemma bind_assoc {A B C} (m : M A) (k : A → M B) (k' : B → M C) s :
  bind (bind m k) k' s = bind m (λ a, bind (k a) k') s.
Proof.
  unfold bind. destruct (m s) as [[[a|e] s1] t1]; [|done].
  destruct (k a s1) as [[[b|e] s2] t2]; [|done].
  destruct (k' b s2) as [[o s3] t3]. by rewrite app_assoc.
Qed.

Lemma commands_app t1 t2 : commands (t1 ++ t2) = commands t1 ++ commands t2.
Proof. apply omap_app. Qed.

Lemma actuation_app t1 t2 : actuation (t1 ++ t2) = actuation t1 ++ actuation t2.
Proof. apply omap_app. Qed.

Section Returns.

Variable clock : nat → Z.

Lemma spin_timed d s :
  timed s → d = "right" ∨ d = "left" →
  spin clock d s =
    (Done tt, moved clock "stop" (moved clock ("sharp_" +:+ d) s),
     Log INFO (Spinning d) :: told clock ("sharp_" +:+ d) s
       ++ Sleep 1 :: told clock "stop" (moved clock ("sharp_" +:+ d) s)).
Proof.
  intros Ht [ -> | -> ]; unfold spin, bind, emit;
    rewrite move_timed by done;
    rewrite move_timed by (by apply moved_timed);
    reflexivity.
Qed.

Lemma modify_speed_helper_returns t s :
  is_Some (variable_speed_map s !! t) →
  ∃ s', modify_speed_helper t s = (Done tt, s', []).
Proof.
  intros [flag Hf]. unfold modify_speed_helper, bind, get, modify.
  rewrite Hf. destruct (flag =? 0); [|by eexists].
  destruct (String.eqb t "slow"); [by eexists|].
  destruct (String.eqb t "fast"); [by eexists|].
  destruct (String.eqb t "super"); by eexists.
Qed.









Lemma event_loop_app l1 l2 held s :
  event_loop clock (l1 ++ l2) held s =
  bind (event_loop clock l1 held) (λ h, event_loop clock l2 h) s.
Proof.
  revert held s. induction l1 as [|[ev|e] l1 IH]; intros held s; simpl.
  - unfold bind, ret. destruct (event_loop clock l2 held s) as [[o s2] t2].
    done.
  - rewrite bind_assoc. unfold bind at 1 3.
    destruct (_ s) as [[[h|e] s1] t1]; [|done].
    by rewrite IH.
  - done.
Qed.

End Returns.

(** ** Speed toggles *)

Lemma toggle_all_app l1 l2 s :
  toggle_all (l1 ++ l2) s = toggle_all l2 (toggle_all l1 s).
Proof. apply foldl_app. Qed.

(** Toggling another speed type keeps a flag and the normal speed. *)
Lemma modify_speed_helper_other t t' s :
  t' ≠ t →
  let s' := (modify_speed_helper t' s).1.2 in
  variable_speed_map s' !! t = variable_speed_map s !! t ∧ NORMAL s' = NORMAL s.
Proof.
  intros Hne. unfold modify_speed_helper, bind, get, modify.
  destruct (variable_speed_map s !! t') as [flag|]; [|done].
  destruct (flag =? 0); simpl.
  - destruct (String.eqb t' "slow"); simpl;
      [by rewrite lookup_insert_ne|].
    destruct (String.eqb t' "fast"); simpl;
      [by rewrite lookup_insert_ne|].
    destruct (String.eqb t' "super"); simpl; by rewrite lookup_insert_ne.
  - by rewrite lookup_insert_ne.
Qed.

Lemma toggle_all_others t others :
  Forall (λ t', t' ≠ t) others →
  ∀ s, variable_speed_map (toggle_all others s) !! t = variable_speed_map s !! t
       ∧ NORMAL (toggle_all others s) = NORMAL s.
Proof.
  induction 1 as [|t' others Hne _ IH]; intros s; [done|].
  unfold toggle_all in *. simpl.
  destruct (modify_speed_helper_other t t' s Hne) as [H1 H2].
  destruct (IH (modify_speed_helper t' s).1.2) as [H3 H4].
  split; congruence.
Qed.

(** ** The end of the session *)

Section Endings.

Variable clock : nat → Z.

(** What an [except] clause of [main] does when it is left normally. *)
Lemma except_clause_Returned x s1 t1 s' t :
  except_clause (move clock "stop" ;; emit x) s1 t1 = (Returned, s', t) →
  s' = moved clock "stop" s1 ∧ t = t1 ++ told clock "stop" s1 ++ [x].
Proof.
  unfold except_clause, bind, emit.
  destruct (move_cases clock "stop" s1) as [->|(old&_&_&_&->)];
    [|discriminate].
  by intros [= <- <-].
Qed.

Lemma except_clause_timed x s1 t1 :
  timed s1 →
  except_clause (move clock "stop" ;; emit x) s1 t1 =
    (Returned, moved clock "stop" s1, t1 ++ told clock "stop" s1 ++ [x]).
Proof.
  intros Ht. unfold except_clause, bind, emit. by rewrite move_timed.
Qed.

Lemma last_command_stop t1 s1 lv m :
  last (commands (t1 ++ told clock "stop" s1 ++ [Log lv m])) = Some STOP.
Proof.
  rewrite !commands_app, commands_told, app_nil_r. apply last_snoc.
Qed.

Lemma event_loop_timed inputs held s :
  timed s → timed (event_loop clock inputs held s).1.2.
Proof.
  apply (preserves_event_loop clock timed); try done.
  apply move_preserves_timed.
Qed.

End Endings.

(** ** The flag and the buttons *)




(** ** The properties of the controller *)

(** C1. For an event of the horizontal axis: a value strictly between the
    two deadzones changes nothing while a button is held, and moves to stop
    when none is; a value at or above the high deadzone moves to the
    right, and a value at or below the low one (and below the high one) to
    the left, whether or not a button is held.  The move sets the direction
    and sends the command of that direction; the call returns when the
    driver accepts the command, and raises its error when the command is
    out of range. *)
Theorem axis_center_yields_to_held_button (clock : nat → Z) s absevent held :
  timed s →
  evdev.code absevent = evdev.ecodes.ABS_X →
  let v := evdev.value absevent in
  let L := leftmotorspeed s in
  let R := rightmotorspeed s in
  (LOW_DEADZONE s < v < HIGH_DEADZONE s →
     handle_abs_event clock absevent true s = (Done tt, s, []) ∧
     ∃ s' t, handle_abs_event clock absevent false s = (Done tt, s', t) ∧
       current_direction s' = Some "stop" ∧
       commands t = [(PyInt 0, PyInt 0)]) ∧
  (HIGH_DEADZONE s ≤ v →
     ∃ o s' t, handle_abs_event clock absevent held s = (o, s', t) ∧
       current_direction s' = Some "right" ∧
       commands t = [(PyFloat L, PyFloat (- R))] ∧
       o = if command_in_range (PyFloat L, PyFloat (- R))
           then Done tt else Raised OutputDeviceBadValue) ∧
  (v < HIGH_DEADZONE s → v ≤ LOW_DEADZONE s →
     ∃ o s' t, handle_abs_event clock absevent held s = (o, s', t) ∧
       current_direction s' = Some "left" ∧
       commands t = [(PyFloat (- L), PyFloat R)] ∧
       o = if command_in_range (PyFloat (- L), PyFloat R)
           then Done tt else Raised OutputDeviceBadValue).
Proof.
  intros Ht Hc v L R. unfold handle_abs_event. rewrite !bind_get, Hc.
  change (evdev.ecodes.ABS_X =? evdev.ecodes.ABS_X) with true. cbv iota.
  fold v. repeat split.
  - destruct (Z.geb_spec v (HIGH_DEADZONE s)); [lia|].
    destruct (Z.leb_spec v (LOW_DEADZONE s)); [lia|]. done.
  - destruct (Z.geb_spec v (HIGH_DEADZONE s)); [lia|].
    destruct (Z.leb_spec v (LOW_DEADZONE s)); [lia|]. simpl.
    rewrite move_timed, sent_stop by done. eexists _, _. split; [done|].
    split; [apply moved_direction|apply commands_told].
  - intros Hv. destruct (Z.geb_spec v (HIGH_DEADZONE s)); [|lia].
    rewrite move_timed by done. eexists _, _, _. split; [done|].
    split; [apply moved_direction|]. split; [apply commands_told|done].
  - intros Hh Hl. destruct (Z.geb_spec v (HIGH_DEADZONE s)); [lia|].
    destruct (Z.leb_spec v (LOW_DEADZONE s)); [|lia].
    rewrite move_timed by done. eexists _, _, _. split; [done|].
    split; [apply moved_direction|]. split; [apply commands_told|done].
Qed.

(** While the robot moves forward with a button held, the axis at 200,
    beyond the default high deadzone of 150, turns it to the right. *)
Lemma axis_center_yields_to_held_button_witness :
  ∃ o s' t,
    handle_abs_event ticking (axis_event 200) true
      (perform ticking (Move "forward") (init default_config))
      = (o, s', t) ∧
    current_direction s' = Some "right" ∧
    commands t = [(PyFloat 0.5, PyFloat (-0.51))] ∧
    o = Done tt.
Proof.
  apply (axis_center_yields_to_held_button ticking
           (perform ticking (Move "forward") (init default_config))
           (axis_event 200) true).
  - intros _. by eexists.
  - reflexivity.
  - by vm_compute.
Defined.

(** C2, as the code has it.  A key event with the code of the triangle
    button (307) raises [KeyboardInterrupt] when it is a release (value 0);
    a press (value 1) returns with [button_is_held] true, and any other
    value returns [button_is_held] as it was: neither exits, changes the
    state or sends a command.  So from the initial state [main] returns on
    the release of the triangle, after a stop command, and keeps waiting
    after its press. *)
Theorem triangle_release_exits (clock : nat → Z) s v held cfg rest :
  handle_key_event clock (key_event 307 v) held s =
    (if v =? 1 then (Done true, s, [])
     else if v =? 0 then (Raised KeyboardInterrupt, s, [])
     else (Done held, s, [])) ∧
  main clock (Event (release 307) :: rest) (init cfg) =
    (Returned, started clock "stop" (init cfg),
     [Log DEBUG (Moving "stop"); RobotValue (PyInt 0, PyInt 0);
      Log INFO Terminated]) ∧
  main clock [Event (press 307)] (init cfg) = (Waiting true, init cfg, []).
Proof.
  split; [|split]; [|reflexivity|reflexivity].
  unfold handle_key_event, BUTTON_PRESS, BUTTON_RELEASE. simpl.
  destruct (v =? 1); [done|]. by destruct (v =? 0).
Qed.

(** C2, as stated, fails: the press of the triangle (value 1) does not end
    the session, [main] keeps waiting for events; its release (value 0)
    does. *)
Lemma triangle_press_does_not_exit :
  handle_key_event ticking (press 307) false (init default_config)
    = (Done true, init default_config, []) ∧
  handle_key_event ticking (release 307) false (init default_config)
    = (Raised KeyboardInterrupt, init default_config, []) ∧
  (main ticking [Event (press 307)] (init default_config)).1.1
    = Waiting true ∧
  (main ticking [Event (release 307)] (init default_config)).1.1
    = Returned.
Proof. repeat split; reflexivity. Qed.

(** C3. Whenever [main] returns, the last command it sent to the robot is
    (0, 0).  And it does return, after that command, on each exit path that
    it handles: when the loop raises [KeyboardInterrupt] (the exit) or any
    exception derived from [Exception]. *)
Theorem main_last_command_is_stop (clock : nat → Z) inputs s :
  timed s →
  (∀ s' t, main clock inputs s = (Returned, s', t) →
     last (commands t) = Some (PyInt 0, PyInt 0)) ∧
  (∀ e s1 t1, event_loop clock inputs false s = (Raised e, s1, t1) →
     e = KeyboardInterrupt ∨ is_Exception e = true →
     ∃ s' t, main clock inputs s = (Returned, s', t) ∧
       last (commands t) = Some (PyInt 0, PyInt 0)).
Proof.
  intros Ht. split.
  - intros s' t. unfold main.
    destruct (event_loop clock inputs false s) as [[[h|e] s1] t1];
      [discriminate|].
    destruct (is_KeyboardInterrupt e); [|destruct (is_Exception e)];
      [| |discriminate];
      intros [_ ->]%except_clause_Returned; apply last_command_stop.
  - intros e s1 t1 Hl He. unfold main.
    pose proof (event_loop_timed clock inputs false s Ht) as Ht1.
    rewrite Hl in *. simpl in Ht1.
    destruct He as [->|He]; simpl.
    + rewrite except_clause_timed by done. eexists _, _.
      split; [done|apply last_command_stop].
    + rewrite He. destruct (is_KeyboardInterrupt e);
        rewrite except_clause_timed by done; eexists _, _;
        (split; [done|apply last_command_stop]).
Qed.

(** Forward, then the exit. *)
Lemma main_last_command_is_stop_witness :
  ∃ s' t,
    main ticking [Event (press 311); Event (release 307)]
      (init default_config) = (Returned, s', t) ∧
    last (commands t) = Some (PyInt 0, PyInt 0).
Proof.
  eapply (main_last_command_is_stop ticking
            [Event (press 311); Event (release 307)] (init default_config)).
  - apply init_timed.
  - reflexivity.
  - left. reflexivity.
Defined.

(** C4. For each of the speed types slow, fast and super, in every state:
    when its flag is 0, [modify_speed_helper] sets the motor speeds to the
    magnitude of the type and that magnitude + 0.01, and sets the flag to
    1; when its flag is not 0, it sets the speeds to NORMAL and
    NORMAL + 0.01 and the flag to 0; nothing else changes, whatever the
    other flags are.  Hence toggling a type on and then off, with any
    toggles of other types in between, leaves the speeds at NORMAL and
    NORMAL + 0.01. *)
Theorem toggle_speed s t :
  t ∈ speed_types →
  (variable_speed_map s !! t = Some 0 →
     modify_speed_helper t s =
       (Done tt,
        set_flag t 1 (set_speeds (magnitude s t) (magnitude s t + 0.01) s),
        [])) ∧
  (∀ flag, variable_speed_map s !! t = Some flag → flag ≠ 0 →
     modify_speed_helper t s =
       (Done tt, set_flag t 0 (set_speeds (NORMAL s) (NORMAL s + 0.01) s), [])) ∧
  (∀ others, variable_speed_map s !! t = Some 0 →
     Forall (λ t', t' ≠ t) others →
     let s' := toggle_all (t :: others ++ [t]) s in
     leftmotorspeed s' = NORMAL s ∧
     rightmotorspeed s' = (NORMAL s + 0.01)%float ∧
     variable_speed_map s' !! t = Some 0).
Proof.
  intros Ht.
  assert (Hon : variable_speed_map s !! t = Some 0 →
     modify_speed_helper t s =
       (Done tt,
        set_flag t 1 (set_speeds (magnitude s t) (magnitude s t + 0.01) s),
        [])).
  { intros H0. unfold modify_speed_helper, bind, get, modify, magnitude.
    rewrite H0. simpl. unfold speed_types in Ht.
    repeat (apply elem_of_cons in Ht as [->|Ht]; [reflexivity|]).
    by apply elem_of_nil in Ht. }
  assert (Hoff : ∀ s flag, variable_speed_map s !! t = Some flag → flag ≠ 0 →
     modify_speed_helper t s =
       (Done tt, set_flag t 0 (set_speeds (NORMAL s) (NORMAL s + 0.01) s), [])).
  { intros s0 flag Hf Hnz. unfold modify_speed_helper, bind, get, modify.
    rewrite Hf. apply Z.eqb_neq in Hnz. by rewrite Hnz. }
  split; [exact Hon|]. split; [apply Hoff|].
  intros others H0 Hothers s'. subst s'.
  change (t :: others ++ [t]) with ([t] ++ others ++ [t]).
  rewrite !toggle_all_app.
  set (s1 := toggle_all [t] s).
  assert (variable_speed_map s1 !! t = Some 1 ∧ NORMAL s1 = NORMAL s)
    as [Hf1 Hn1].
  { unfold s1, toggle_all. simpl. rewrite (Hon H0). simpl.
    by rewrite lookup_insert_eq. }
  destruct (toggle_all_others t others Hothers s1) as [Hf2 Hn2].
  set (s2 := toggle_all others s1) in *.
  unfold toggle_all at 1 2 3. simpl.
  rewrite (Hoff s2 1) by (done || congruence). simpl.
  rewrite lookup_insert_eq. repeat split; congruence.
Qed.

(** From the initial state: fast on. *)
Lemma toggle_speed_witness :
  modify_speed_helper "fast" (init default_config)
    = (Done tt,
       set_flag "fast" 1 (set_speeds 0.75 0.76 (init default_config)), []).
Proof.
  apply (toggle_speed (init default_config) "fast").
  - unfold speed_types. set_solver.
  - reflexivity.
Defined.

(** C5. In a state with motor speeds L and R, the command that [move]
    sends to the robot is (-L, -R) for forward, (L, R) for backward,
    (-L, R) for left, (L, -R) for right, (1, -1) for sharp_left, (-1, 1) for
    sharp_right and (0, 0) for stop, and nothing else is sent; with the
    default configuration the first forward command is (-0.5, -0.51). *)
Theorem move_command (clock : nat → Z) s :
  timed s →
  let L := leftmotorspeed s in
  let R := rightmotorspeed s in
  commands (move clock "forward" s).2 = [(PyFloat (- L), PyFloat (- R))] ∧
  commands (move clock "backward" s).2 = [(PyFloat L, PyFloat R)] ∧
  commands (move clock "left" s).2 = [(PyFloat (- L), PyFloat R)] ∧
  commands (move clock "right" s).2 = [(PyFloat L, PyFloat (- R))] ∧
  commands (move clock "sharp_left" s).2 = [(PyInt 1, PyInt (-1))] ∧
  commands (move clock "sharp_right" s).2 = [(PyInt (-1), PyInt 1)] ∧
  commands (move clock "stop" s).2 = [(PyInt 0, PyInt 0)] ∧
  commands (move clock "forward" (init default_config)).2
    = [(PyFloat (-0.5), PyFloat (-0.51))].
Proof.
  intros Ht L R.
  repeat split; rewrite move_timed by done; apply commands_told.
Qed.

(** At the fast speed, a move to the left. *)
Lemma move_command_witness :
  commands
    (move ticking "left"
       (perform ticking (ModifySpeedHelper "fast") (init default_config))).2
    = [(PyFloat (-0.75), PyFloat 0.76)].
Proof.
  apply (move_command ticking
           (perform ticking (ModifySpeedHelper "fast") (init default_config))).
  intros [d Hd]. discriminate Hd.
Defined.




(** C7, as the code has it.  When the read of the next event raises an
    exception derived from [Exception], after events that were handled,
    [main] ends the session: it sends the command (0, 0), logs the error,
    and returns normally; the exception does not reach the caller. *)
Theorem read_error_is_logged_not_raised
  (clock : nat → Z) pre e rest s held s1 t1 :
  timed s →
  is_Exception e = true →
  event_loop clock (Event <$> pre) false s = (Done held, s1, t1) →
  ∃ s' t2,
    main clock ((Event <$> pre) ++ ReadFails e :: rest) s =
      (Returned, s', t1 ++ t2 ++ [Log ERROR (MainLoopError e)]) ∧
    commands t2 = [(PyInt 0, PyInt 0)].
Proof.
  intros Ht He Hl. unfold main.
  pose proof (event_loop_timed clock (Event <$> pre) false s Ht) as Ht1.
  rewrite event_loop_app. unfold bind at 1. rewrite Hl in *. simpl in *.
  rewrite app_nil_r, He.
  assert (is_KeyboardInterrupt e = false) as -> by (by destruct e).
  rewrite except_clause_timed by done.
  eexists _, _. split; [done|apply commands_told].
Qed.

(** Forward, then the device is lost. *)
Lemma read_error_is_logged_not_raised_witness :
  ∃ s' t2,
    main ticking [Event (press 311); ReadFails OSError] (init default_config)
      = (Returned, s',
         [ Log DEBUG (Moving "forward");
           RobotValue (PyFloat (-0.5), PyFloat (-0.51)) ]
         ++ t2 ++ [Log ERROR (MainLoopError OSError)]) ∧
    commands t2 = [(PyInt 0, PyInt 0)].
Proof.
  apply (read_error_is_logged_not_raised ticking [press 311] OSError []
           (init default_config) true
           (started ticking "forward" (init default_config))).
  - apply init_timed.
  - reflexivity.
  - reflexivity.
Defined.

(** C7, as stated, fails: when the first read raises [OSError], [main]
    stops the robot, logs the error and returns; no exception leaves it. *)
Lemma read_error_is_swallowed :
  main ticking [ReadFails OSError] (init default_config) =
    (Returned, started ticking "stop" (init default_config),
     [ Log DEBUG (Moving "stop"); RobotValue (PyInt 0, PyInt 0);
       Log ERROR (MainLoopError OSError) ]) ∧
  ∀ e, (main ticking [ReadFails OSError] (init default_config)).1.1
         ≠ Propagated e.
Proof. split; [reflexivity|discriminate]. Qed.

(** C8. In a state where [move] returns, [spin] sends exactly two commands
    to the robot, with one sleep of 1 second between them and nothing else
    but log records: (-1, 1) for right, or (1, -1) for left, and then
    (0, 0).  The release of the right trigger (313) is handled by the spin
    to the right, that of the left trigger (312) by the spin to the left. *)
Theorem spin_sends_two_commands (clock : nat → Z) s held :
  timed s →
  (∃ s' t, spin clock "right" s = (Done tt, s', t) ∧
     handle_key_event clock (release 313) held s = (Done false, s', t) ∧
     actuation t = [ RobotValue (PyInt (-1), PyInt 1); Sleep 1;
                     RobotValue (PyInt 0, PyInt 0) ]) ∧
  (∃ s' t, spin clock "left" s = (Done tt, s', t) ∧
     handle_key_event clock (release 312) held s = (Done false, s', t) ∧
     actuation t = [ RobotValue (PyInt 1, PyInt (-1)); Sleep 1;
                     RobotValue (PyInt 0, PyInt 0) ]).
Proof.
  intros Ht. split.
  - eexists _, _. split; [apply spin_timed; [done|by left]|]. split.
    + change (handle_key_event clock _ held)
        with (spin clock "right" ;; ret false).
      unfold bind. rewrite spin_timed by (done || by left).
      simpl. by rewrite app_nil_r.
    + change (Log INFO (Spinning "right") :: ?a ++ Sleep 1 :: ?b)
        with ([Log INFO (Spinning "right")] ++ a ++ [Sleep 1] ++ b).
      rewrite !actuation_app, !actuation_told. reflexivity.
  - eexists _, _. split; [apply spin_timed; [done|by right]|]. split.
    + change (handle_key_event clock _ held)
        with (spin clock "left" ;; ret false).
      unfold bind. rewrite spin_timed by (done || by right).
      simpl. by rewrite app_nil_r.
    + change (Log INFO (Spinning "left") :: ?a ++ Sleep 1 :: ?b)
        with ([Log INFO (Spinning "left")] ++ a ++ [Sleep 1] ++ b).
      rewrite !actuation_app, !actuation_told. reflexivity.
Qed.

(** The right trigger released while the robot moves forward. *)
Lemma spin_sends_two_commands_witness :
  ∃ s' t,
    spin ticking "right"
      (perform ticking (Move "forward") (init default_config))
      = (Done tt, s', t) ∧
    handle_key_event ticking (release 313) true
      (perform ticking (Move "forward") (init default_config))
      = (Done false, s', t) ∧
    actuation t = [ RobotValue (PyInt (-1), PyInt 1); Sleep 1;
                    RobotValue (PyInt 0, PyInt 0) ].
Proof.
  apply (spin_sends_two_commands ticking
           (perform ticking (Move "forward") (init default_config)) true).
  intros _. by eexists.
Defined.

(** C9, as the code has it.  In every reachable state, a [move] to a
    direction other than the current one, when there is a current one, logs
    exactly one duration record; the record carries the old direction and
    the reading of [time.time()] at the move minus the reading at the start
    of the old direction, which is not negative when no earlier reading of
    the clock is above the reading at the move.  A [move] to the current
    direction, and the first [move] of all, log no duration record. *)
Theorem direction_change_telemetry (clock : nat → Z) cfg s d :
  reachable clock cfg s →
  (∀ old, current_direction s = Some old → old ≠ d →
     ∃ start, direction_start_time s = Some start ∧
       telemetry (move clock d s).2 = [(old, clock (ticks s) - start)] ∧
       ((∀ i, (i ≤ ticks s)%nat → clock i ≤ clock (ticks s)) →
        0 ≤ clock (ticks s) - start)) ∧
  (current_direction s = Some d → telemetry (move clock d s).2 = []) ∧
  (current_direction s = None → telemetry (move clock d s).2 = []).
Proof.
  intros Hr. repeat split.
  - intros old Hc Hne.
    destruct (reachable_timed clock cfg s Hr) as [start Hs]; [by eexists|].
    exists start. rewrite (move_change clock d s old start) by done.
    repeat split; [done|]. intros Hmono.
    destruct (reachable_chronological clock cfg s Hr start Hs) as (i&Hi&->).
    specialize (Hmono i). lia.
  - intros Hc. by rewrite move_same.
  - intros Hc. by rewrite move_first.
Qed.

(** Forward, then stop one reading of the clock later. *)
Lemma direction_change_telemetry_witness :
  ∃ start,
    direction_start_time
      (perform ticking (Move "forward") (init default_config)) = Some start ∧
    telemetry
      (move ticking "stop"
         (perform ticking (Move "forward") (init default_config))).2
      = [("forward", ticking 1 - start)] ∧
    0 ≤ ticking 1 - start.
Proof.
  destruct (direction_change_telemetry ticking default_config
              (perform ticking (Move "forward") (init default_config)) "stop")
    as [Hchange _]; [apply reachable_step, reachable_init|].
  destruct (Hchange "forward") as (start & Hstart & Hlog & Hpos);
    [reflexivity|discriminate|].
  exists start. split; [exact Hstart|]. split; [exact Hlog|].
  apply Hpos. intros i Hi. unfold ticking. by apply inj_le.
Defined.

(** C9, as stated, fails.  With the clock set back between the two moves
    (readings 10, then 5), the stop after the move forward logs the
    duration -5. *)
Lemma direction_change_negative_duration :
  reachable set_back default_config
    (perform set_back (Move "forward") (init default_config)) ∧
  current_direction (perform set_back (Move "forward") (init default_config))
    = Some "forward" ∧
  telemetry
    (move set_back "stop"
       (perform set_back (Move "forward") (init default_config))).2
    = [("forward", -5)].
Proof.
  split; [apply reachable_step, reachable_init|]. split; reflexivity.
Qed.

(** C10. In every state reachable from the one [__init__] builds, by any
    sequence of [move], [spin], speed toggles, event handlers and [main],
    [direction_start_time] is set whenever [current_direction] is set; hence
    [move] never subtracts [None] from the time: it does not raise
    [TypeError], and it returns when the driver accepts the command of the
    direction. *)
Theorem reachable_direction_has_start_time (clock : nat → Z) cfg s :
  reachable clock cfg s →
  (current_direction s ≠ None → direction_start_time s ≠ None) ∧
  (∀ d, (move clock d s).1.1 ≠ Raised TypeError) ∧
  (∀ d, command_in_range (default STOP (directions s !! d)) = true →
     ∃ s' t, move clock d s = (Done tt, s', t)).
Proof.
  intros Hr. pose proof (reachable_timed clock cfg s Hr) as Ht.
  split; [|split].
  - intros Hc Hs. destruct (current_direction s) as [old|] eqn:E; [|done].
    destruct Ht as [start Hstart]; [by eexists|]. congruence.
  - intros d. rewrite move_timed by done. simpl. unfold sent.
    by destruct (command_in_range _).
  - intros d Hd. rewrite move_timed by done. eexists _, _.
    unfold sent. change (PyInt 0, PyInt 0) with STOP. by rewrite Hd.
Qed.

(** The state after the press of the right bumper is such a state. *)
Lemma reachable_direction_has_start_time_witness :
  current_direction
    (perform ticking (HandleKeyEvent (press 311) false) (init default_config))
    = Some "forward" ∧
  direction_start_time
    (perform ticking (HandleKeyEvent (press 311) false) (init default_config))
    ≠ None ∧
  (move ticking "stop"
     (perform ticking (HandleKeyEvent (press 311) false)
        (init default_config))).1.1 ≠ Raised TypeError.
Proof.
  split; [reflexivity|].
  destruct (reachable_direction_has_start_time ticking default_config
              (perform ticking (HandleKeyEvent (press 311) false)
                 (init default_config)))
    as (Hstart & Hmove & _); [apply reachable_step, reachable_init|].
  split; [by apply Hstart|apply Hmove].
Defined.

(** ** More properties of the controller *)

(** X1. In a state whose speeds pass the range check ([speeds_in_range]:
    the current pair and the pairs of the four tiers, with either sign, lie
    between -1 and 1), every command that a session of [main] sends to the
    robot has both values between -1 and 1, whatever the inputs, and the
    check still holds afterwards. *)
Theorem commands_stay_in_range (clock : nat → Z) inputs s :
  speeds_in_range s = true →
  Forall (λ v, command_in_range v = true) (commands (main clock inputs s).2) ∧
  speeds_in_range (main clock inputs s).1.2 = true.
Proof.
  intros Hs.
  destruct (keeps_main clock (λ s, speeds_in_range s = true)
              (λ x, ∀ v, x = RobotValue v → command_in_range v = true))
    with (inputs := inputs) (s := s) as [H1 H2]; try done.
  - intros d _. apply move_keeps_range.
  - intros t _. apply modify_speed_helper_keeps_range.
  - split; [|exact H1].
    induction H2 as [|x t Hx _ IH]; [constructor|].
    destruct x as [lv m|v|n]; simpl; try exact IH.
    constructor; [by apply Hx|exact IH].
Qed.

(** The default configuration passes the check. *)
Lemma commands_stay_in_range_witness :
  Forall (λ v, command_in_range v = true)
    (commands
       (main ticking [Event (release 305); Event (press 311);
                      Event (axis_event 200); Event (release 313)]
          (init default_config)).2).
Proof.
  apply (commands_stay_in_range ticking
           [Event (release 305); Event (press 311);
            Event (axis_event 200); Event (release 313)]
           (init default_config)).
  reflexivity.
Defined.

Lemma flags_wellformed_insert s t flag v :
  flags_wellformed s → variable_speed_map s !! t = Some flag →
  v = 0 ∨ v = 1 →
  dom (<[t := v]> (variable_speed_map s)) = list_to_set speed_types ∧
  ∀ t' flag', <[t := v]> (variable_speed_map s) !! t' = Some flag' →
    flag' = 0 ∨ flag' = 1.
Proof.
  intros [Hd Hv] Ht Hval. split.
  - rewrite dom_insert_L, <- Hd.
    apply subseteq_union_1_L, singleton_subseteq_l, elem_of_dom.
    by eexists.
  - intros t' flag'. destruct (decide (t = t')) as [->|Hne].
    + rewrite lookup_insert_eq. by intros [= <-].
    + rewrite lookup_insert_ne by done. apply Hv.
Qed.

Lemma modify_speed_helper_flags t :
  preserves flags_wellformed (modify_speed_helper t).
Proof.
  intros s Hs. unfold modify_speed_helper, bind, get, modify.
  destruct (variable_speed_map s !! t) as [flag|] eqn:Ht; [|done].
  destruct (flag =? 0); simpl.
  - destruct (String.eqb t "slow"); simpl;
      [eapply flags_wellformed_insert; eauto|].
    destruct (String.eqb t "fast"); simpl;
      [eapply flags_wellformed_insert; eauto|].
    destruct (String.eqb t "super"); simpl;
      eapply flags_wellformed_insert; eauto.
  - eapply flags_wellformed_insert; eauto.
Qed.

Lemma move_flags clock d : preserves flags_wellformed (move clock d).
Proof.
  intros s Hs. destruct (move_cases clock d s) as [->|(old&_&_&_&->)]; simpl.
  - unfold flags_wellformed. by destruct (moved_speeds clock d s) as (_&_&->).
  - done.
Qed.

Lemma init_flags cfg : flags_wellformed (init cfg).
Proof.
  split.
  - reflexivity.
  - intros t flag. simpl.
    destruct (decide (t = "slow")) as [->|?]; [intros [= <-]; by left|].
    destruct (decide (t = "fast")) as [->|?]; [intros [= <-]; by left|].
    destruct (decide (t = "super")) as [->|?]; [intros [= <-]; by left|].
    rewrite !lookup_insert_ne by done. by rewrite lookup_empty.
Qed.

(** An invariant that [move] and [modify_speed_helper] keep holds in every
    reachable state. *)
Lemma reachable_kept (clock : nat → Z) (I : PS4Controller → Prop) :
  (∀ d, preserves I (move clock d)) →
  (∀ t, preserves I (modify_speed_helper t)) →
  ∀ cfg s, I (init cfg) → reachable clock cfg s → I s.
Proof.
  intros Hmove Hhelper cfg s Hinit Hr.
  assert (Km : ∀ d, d ∈ known_directions → keeps I (λ _, True) (move clock d)).
  { intros d _ s1 H1. split; [by apply Hmove|by apply Forall_true]. }
  assert (Kh : ∀ t, t ∈ speed_types →
                 keeps I (λ _, True) (modify_speed_helper t)).
  { intros t _ s1 H1. split; [by apply Hhelper|by apply Forall_true]. }
  induction Hr as [|s op Hr IH]; [done|].
  destruct op; simpl.
  - by apply Hmove.
  - by apply (preserves_spin clock I Hmove).
  - by apply (keeps_modify_speed I (λ _, True) Kh).
  - by apply Hhelper.
  - by apply (keeps_handle_key_event clock I (λ _, True) Km Kh).
  - by apply (keeps_handle_abs_event clock I (λ _, True) Km).
  - by apply (keeps_main clock I (λ _, True) Km Kh).
Qed.

(** X2. In every reachable state the dictionary of speed flags has exactly
    the keys slow, fast and super, and each flag is 0 or 1; so toggling one
    of the three speed types never raises [KeyError]: it returns, without
    any effect on the outside. *)
Theorem speed_flags_stay_wellformed (clock : nat → Z) cfg s :
  reachable clock cfg s →
  dom (variable_speed_map s) = {["slow"; "fast"; "super"]} ∧
  (∀ speed_type flag, variable_speed_map s !! speed_type = Some flag →
     flag = 0 ∨ flag = 1) ∧
  (∀ speed_type, speed_type ∈ speed_types →
     ∃ s', modify_speed_helper speed_type s = (Done tt, s', [])).
Proof.
  intros Hr.
  destruct (reachable_kept clock flags_wellformed (move_flags clock)
              modify_speed_helper_flags cfg s (init_flags cfg) Hr)
    as [Hd Hv].
  split; [|split; [exact Hv|]].
  - rewrite Hd. unfold speed_types. set_solver.
  - intros t Ht. apply modify_speed_helper_returns.
    apply elem_of_dom. rewrite Hd. by apply elem_of_list_to_set.
Qed.

(** After fast on, slow on, fast off. *)
Lemma speed_flags_stay_wellformed_witness :
  dom (variable_speed_map
         (perform ticking (Main [Event (release 304); Event (release 308);
                                 Event (release 304)])
            (init default_config)))
    = {["slow"; "fast"; "super"]}.
Proof.
  apply (speed_flags_stay_wellformed ticking default_config).
  apply reachable_step, reachable_init.
Defined.

Lemma modify_speed_helper_silent t s : (modify_speed_helper t s).2 = [].
Proof.
  unfold modify_speed_helper, bind, get, modify.
  destruct (variable_speed_map s !! t) as [flag|]; [|done].
  destruct (flag =? 0); simpl; [|done].
  destruct (String.eqb t "slow"); simpl; [done|].
  destruct (String.eqb t "fast"); simpl; [done|].
  by destruct (String.eqb t "super").
Qed.

Lemma modify_speed_helper_direction t s :
  current_direction (modify_speed_helper t s).1.2 = current_direction s.
Proof.
  unfold modify_speed_helper, bind, get, modify.
  destruct (variable_speed_map s !! t) as [flag|]; [|done].
  destruct (flag =? 0); simpl; [|done].
  destruct (String.eqb t "slow"); simpl; [done|].
  destruct (String.eqb t "fast"); simpl; [done|].
  by destruct (String.eqb t "super").
Qed.

(** X3. In a session of [main] that starts with no direction, or with one
    that [move] has a command for, every call of [move] is for one of the
    seven directions of its dictionary, and every duration record names one
    of them: the fallback (0, 0) of the dictionary lookup is never used.
    The same holds of the direction the session ends with. *)
Theorem main_moves_in_known_directions (clock : nat → Z) inputs s :
  (∀ d, current_direction s = Some d → d ∈ known_directions) →
  (∀ d, Log DEBUG (Moving d) ∈ (main clock inputs s).2 →
     d ∈ known_directions) ∧
  (∀ d duration, (d, duration) ∈ telemetry (main clock inputs s).2 →
     d ∈ known_directions) ∧
  (∀ d, current_direction (main clock inputs s).1.2 = Some d →
     d ∈ known_directions).
Proof.
  intros Hs.
  set (I := λ s : PS4Controller,
         ∀ d, current_direction s = Some d → d ∈ known_directions).
  set (G := λ x : effect,
         match x with
         | Log _ (Moving d) | Log _ (MovingFor d _) => d ∈ known_directions
         | _ => True
         end).
  destruct (keeps_main clock I G) with (inputs := inputs) (s := s)
    as [H1 H2]; try done.
  - intros d Hd s0 H0.
    destruct (move_cases clock d s0) as [->|(old&_&_&_&->)]; simpl.
    + split.
      * intros d'. rewrite moved_direction. by intros [= <-].
      * unfold told, shown.
        destruct (current_direction s0) as [old|] eqn:Hc;
          destruct (direction_start_time s0);
          try case_bool_decide; rewrite ?Forall_cons, Forall_nil;
          repeat split; try exact Hd; by apply H0.
    + by split.
  - intros t _ s0 H0. split.
    + intros d. rewrite modify_speed_helper_direction. apply H0.
    + rewrite modify_speed_helper_silent. constructor.
  - intros lv m Hm1 Hm2. destruct m; try done.
    + by destruct (Hm1 direction duration).
    + by destruct (Hm2 direction).
  - rewrite Forall_forall in H2. split; [|split; [|exact H1]].
    + intros d Hd. exact (H2 _ Hd).
    + intros d duration Hd. unfold telemetry in Hd.
      apply list_elem_of_omap in Hd as (x & Hx & Hm).
      specialize (H2 x Hx).
      destruct x as [lv m| |]; try discriminate.
      destruct lv; try discriminate. destruct m; try discriminate.
      by injection Hm as -> _.
Qed.

(** Forward, then a spin to the left, from the initial state. *)
Lemma main_moves_in_known_directions_witness :
  current_direction
    (main ticking [Event (press 311); Event (release 312)]
       (init default_config)).1.2 = Some "stop" ∧
  "stop" ∈ known_directions.
Proof.
  assert (current_direction
            (main ticking [Event (press 311); Event (release 312)]
               (init default_config)).1.2 = Some "stop") as Hstop
    by reflexivity.
  split; [exact Hstop|].
  destruct (main_moves_in_known_directions ticking
              [Event (press 311); Event (release 312)] (init default_config))
    as (_ & _ & Hfinal).
  - intros d Hd. discriminate Hd.
  - exact (Hfinal "stop" Hstop).
Defined.

(** X4. The loop of [main] passes over every event that is neither a key
    event nor an event of the horizontal axis (synchronisation reports,
    other axes): such events change nothing, send nothing, log nothing, and
    leave [button_is_held] as it was. *)
Theorem other_events_are_passed_over (clock : nat → Z) events held s :
  Forall (λ event, passed_over event = true) events →
  event_loop clock (Event <$> events) held s = (Done held, s, []).
Proof.
  revert held s. induction events as [|ev events IH]; intros held s Hp; csimpl.
  - reflexivity.
  - apply Forall_cons in Hp as [Hev Hp]. unfold passed_over in Hev.
    apply andb_true_iff in Hev as [Hk Ha]. apply negb_true_iff in Hk, Ha.
    unfold bind at 1. rewrite Hk.
    destruct (evdev.type ev =? evdev.ecodes.EV_ABS) eqn:Et.
    + simpl in Ha. unfold handle_abs_event, bind, get. rewrite Ha. simpl.
      by rewrite IH.
    + simpl. by rewrite IH.
Qed.

(** A synchronisation report and a move of the vertical axis. *)
Lemma other_events_are_passed_over_witness :
  event_loop ticking
    (Event <$> [ {| evdev.type := 0; evdev.code := 0; evdev.value := 0 |};
                 {| evdev.type := 3; evdev.code := 1; evdev.value := 255 |} ])
    true (init default_config)
  = (Done true, init default_config, []).
Proof.
  apply (other_events_are_passed_over ticking
           [ {| evdev.type := 0; evdev.code := 0; evdev.value := 0 |};
             {| evdev.type := 3; evdev.code := 1; evdev.value := 255 |} ]
           true (init default_config)).
  repeat constructor.
Defined.

(** X5. A key event acts only in these cases: the press of a bumper, and
    the release of one of the eight mapped keys.  The press of any other
    key only sets [button_is_held]; the release of an unmapped key only
    clears it; an event with another value than 0 or 1 (a key repeat) does
    nothing at all.  None of them changes the state, sends a command or
    writes to the log. *)
Theorem idle_key_events (clock : nat → Z) event held s :
  (evdev.value event = 1 →
   evdev.code event ≠ 311 → evdev.code event ≠ 310 →
   handle_key_event clock event held s = (Done true, s, [])) ∧
  (evdev.value event = 0 →
   evdev.code event ∉ [304; 308; 307; 305; 312; 310; 313; 311] →
   handle_key_event clock event held s = (Done false, s, [])) ∧
  (evdev.value event ≠ 1 → evdev.value event ≠ 0 →
   handle_key_event clock event held s = (Done held, s, [])).
Proof.
  unfold handle_key_event, BUTTON_PRESS, BUTTON_RELEASE. repeat split.
  - intros -> Hrb Hlb. simpl.
    apply Z.eqb_neq in Hrb, Hlb.
    change (key "rb") with 311. change (key "lb") with 310.
    by rewrite Hrb, Hlb.
  - intros -> Hc. simpl.
    assert (∀ c, c ∈ [304; 308; 307; 305; 312; 310; 313; 311] →
                 (evdev.code event =? c) = false) as Hne.
    { intros c Hin. apply Z.eqb_neq. intros Heq. rewrite <- Heq in Hin.
      by apply Hc. }
    unfold code_in. simpl.
    change (key "rb") with 311. change (key "lb") with 310.
    change (key "lt") with 312. change (key "rt") with 313.
    change (key "square") with 308. change (key "x") with 304.
    change (key "circle") with 305. change (key "triangle") with 307.
    rewrite !Hne by
      (repeat (apply elem_of_cons; first [left; reflexivity | right])).
    reflexivity.
  - intros H1 H0. apply Z.eqb_neq in H1, H0. by rewrite H1, H0.
Qed.

(** The press of the circle, and a repeat of the right bumper. *)
Lemma idle_key_events_witness :
  handle_key_event ticking (press 305) false (init default_config)
    = (Done true, init default_config, []) ∧
  handle_key_event ticking (key_event 311 2) false (init default_config)
    = (Done false, init default_config, []).
Proof.
  split.
  - apply (idle_key_events ticking (press 305) false (init default_config));
      [reflexivity|discriminate|discriminate].
  - apply (idle_key_events ticking (key_event 311 2) false
             (init default_config)); discriminate.
Defined.

(** X6. Where a [move] has returned, a second [move] in the same direction
    returns too: it sends the same command again and writes its debug
    record, and nothing more; the state, the start time among it, is as
    the first call left it, and no duration is logged. *)
Theorem move_again_resends (clock : nat → Z) d s s1 t1 :
  timed s →
  move clock d s = (Done tt, s1, t1) →
  ∃ v, commands t1 = [v] ∧
    move clock d s1 = (Done tt, s1, [Log DEBUG (Moving d); RobotValue v]).
Proof.
  intros Ht. rewrite move_timed by done. intros [= Hsent <- <-].
  exists (default STOP (directions s !! d)).
  split; [apply commands_told|].
  rewrite move_same by apply moved_direction.
  unfold sent, shown in *. rewrite directions_moved.
  by destruct (command_in_range _).
Qed.

(** Forward twice. *)
Lemma move_again_resends_witness :
  ∃ v,
    commands (told ticking "forward" (init default_config)) = [v] ∧
    move ticking "forward" (moved ticking "forward" (init default_config))
      = (Done tt, moved ticking "forward" (init default_config),
         [Log DEBUG (Moving "forward"); RobotValue v]).
Proof.
  apply (move_again_resends ticking "forward" (init default_config)).
  - apply init_timed.
  - reflexivity.
Defined.

(** X7. The release of the square (308), of the x (304) and of the circle
    (305) toggles the speed type slow, fast and super respectively, as
    [modify_speed_helper] does, and logs the two motor speeds that result.
    It sends no command to the robot and keeps the direction: the new
    speeds reach the motors with the next [move] only. *)
Theorem speed_buttons_toggle_without_command
  (clock : nat → Z) c speed_type held s :
  tiered s →
  (c, speed_type) ∈ [(308, "slow"); (304, "fast"); (305, "super")] →
  ∃ s', modify_speed_helper speed_type s = (Done tt, s', []) ∧
    handle_key_event clock (release c) held s =
      (Done false, s',
       [Log INFO (MotorSpeeds (leftmotorspeed s') (rightmotorspeed s'))]) ∧
    current_direction s' = current_direction s.
Proof.
  intros Ht Hin.
  assert (speed_type ∈ speed_types ∧
          handle_key_event clock (release c) held s =
            ((modify_speed_helper speed_type ;;
              s <- get ;;
              emit (Log INFO (MotorSpeeds (leftmotorspeed s)
                                (rightmotorspeed s)))) ;;
             ret false) s) as [Hty ->].
  { unfold speed_types.
    repeat (apply elem_of_cons in Hin as [[= -> ->]|Hin];
            [split; [|reflexivity];
             repeat (apply elem_of_cons; first [left; reflexivity | right])|]).
    by apply elem_of_nil in Hin. }
  destruct (modify_speed_helper_returns speed_type s (Ht _ Hty)) as [s' Hs'].
  exists s'. split; [exact Hs'|]. split.
  - unfold bind. rewrite Hs'. reflexivity.
  - rewrite <- (modify_speed_helper_direction speed_type s). by rewrite Hs'.
Qed.

(** The x button, while the robot moves forward. *)
Lemma speed_buttons_toggle_without_command_witness :
  ∃ s', modify_speed_helper "fast"
          (perform ticking (Move "forward") (init default_config))
          = (Done tt, s', []) ∧
    handle_key_event ticking (release 304) true
      (perform ticking (Move "forward") (init default_config))
      = (Done false, s',
         [Log INFO (MotorSpeeds (leftmotorspeed s') (rightmotorspeed s'))]) ∧
    current_direction s'
      = current_direction
          (perform ticking (Move "forward") (init default_config)).
Proof.
  apply (speed_buttons_toggle_without_command ticking 304 "fast" true
           (perform ticking (Move "forward") (init default_config))).
  - apply (init_tiered default_config).
  - apply elem_of_cons. right. apply elem_of_cons. left. reflexivity.
Defined.

(** X8. The session ends at the first input that ends it: after a failed
    read, or after the exit event, [main] looks at no further input.
    Whatever follows, its result, the final state and all its effects are
    the same. *)
Theorem nothing_is_read_after_the_end (clock : nat → Z) before x rest s :
  ends_session x = true →
  main clock (before ++ x :: rest) s = main clock (before ++ [x]) s.
Proof.
  intros Hx. unfold main. rewrite !event_loop_app. unfold bind.
  destruct (event_loop clock before false s) as [[[h|e] s1] t1]; [|done].
  destruct x as [ev|e]; [|done].
  unfold ends_session, is_exit in Hx.
  apply andb_true_iff in Hx as [Hx Hc]. apply andb_true_iff in Hx as [Hk Hv].
  apply Z.eqb_eq in Hc, Hv.
  assert (handle_key_event clock ev h s1 = (Raised KeyboardInterrupt, s1, []))
    as Hexit.
  { unfold handle_key_event. rewrite Hv, Hc. reflexivity. }
  cbn [event_loop]. unfold bind. by rewrite Hk, Hexit.
Qed.

(** Events after the exit. *)
Lemma nothing_is_read_after_the_end_witness :
  main ticking ([Event (press 311)] ++ Event (release 307)
                  :: [Event (press 310); Event (release 313)])
    (init default_config)
  = main ticking ([Event (press 311)] ++ [Event (release 307)])
      (init default_config).
Proof.
  apply (nothing_is_read_after_the_end ticking [Event (press 311)]
           (Event (release 307)) [Event (press 310); Event (release 313)]
           (init default_config)).
  reflexivity.
Defined.

Lemma move_speeds_from clock cfg d : preserves (speeds_from cfg) (move clock d).
Proof.
  intros s Hs. destruct (move_cases clock d s) as [->|(old&_&_&_&->)]; simpl.
  - unfold speeds_from, moved in *.
    destruct (current_direction s) as [old|]; [|done]. by case_bool_decide.
  - done.
Qed.

Lemma modify_speed_helper_speeds_from cfg t :
  preserves (speeds_from cfg) (modify_speed_helper t).
Proof.
  intros s (H1 & H2 & H3 & H4 & H5 & H6 & H7).
  assert (∀ l r, (l, r) ∈ speed_pairs cfg →
            ∀ s', SLOW s' = SLOW s → NORMAL s' = NORMAL s →
                  FAST s' = FAST s → SUPER s' = SUPER s →
                  HIGH_DEADZONE s' = HIGH_DEADZONE s →
                  LOW_DEADZONE s' = LOW_DEADZONE s →
                  leftmotorspeed s' = l → rightmotorspeed s' = r →
                  speeds_from cfg s') as Hset.
  { intros l r Hin s' E1 E2 E3 E4 E5 E6 E7 E8. unfold speeds_from.
    rewrite E1, E2, E3, E4, E5, E6, E7, E8. by repeat split. }
  unfold modify_speed_helper, bind, get, modify.
  destruct (variable_speed_map s !! t) as [flag|]; [|by repeat split].
  assert (∀ n, (n < 5)%nat → ∀ l r, speed_pairs cfg !! n = Some (l, r) →
                 (l, r) ∈ speed_pairs cfg) as Hnth.
  { intros n _ l r Hn. by eapply list_elem_of_lookup_2. }
  destruct (flag =? 0); simpl.
  - destruct (String.eqb t "slow"); simpl.
    { eapply (Hset _ _ (Hnth 1%nat ltac:(lia) _ _ eq_refl));
        simpl; congruence. }
    destruct (String.eqb t "fast"); simpl.
    { eapply (Hset _ _ (Hnth 3%nat ltac:(lia) _ _ eq_refl));
        simpl; congruence. }
    destruct (String.eqb t "super"); simpl.
    { eapply (Hset _ _ (Hnth 4%nat ltac:(lia) _ _ eq_refl));
        simpl; congruence. }
    by repeat split.
  - eapply (Hset _ _ (Hnth 2%nat ltac:(lia) _ _ eq_refl)); simpl; congruence.
Qed.

(** X9. In every state reachable from [init cfg] the tier magnitudes and
    the deadzones are those of the configuration, and the two motor speeds
    are either the configured start pair or the pair (m, m + 0.01) of one
    of the four tiers: once a speed type is toggled, the configured start
    pair is not set again by any operation. *)
Theorem speeds_are_start_or_tier_pair (clock : nat → Z) cfg s :
  reachable clock cfg s →
  SLOW s = SLOW_SPEED cfg ∧ NORMAL s = NORMAL_SPEED cfg ∧
  FAST s = FAST_SPEED cfg ∧ SUPER s = SUPER_SPEED cfg ∧
  HIGH_DEADZONE s = CFG_HIGH_DEADZONE cfg ∧
  LOW_DEADZONE s = CFG_LOW_DEADZONE cfg ∧
  (leftmotorspeed s, rightmotorspeed s) ∈ speed_pairs cfg.
Proof.
  intros Hr.
  apply (reachable_kept clock (speeds_from cfg)
           (move_speeds_from clock cfg) (modify_speed_helper_speeds_from cfg)
           cfg s); [|exact Hr].
  repeat split. apply elem_of_cons. by left.
Qed.

(** After slow on and slow off, with moves in between. *)
Lemma speeds_are_start_or_tier_pair_witness :
  (leftmotorspeed
     (perform ticking (Main [Event (release 308); Event (press 311);
                             Event (release 308); Event (release 311)])
        (init default_config)),
   rightmotorspeed
     (perform ticking (Main [Event (release 308); Event (press 311);
                             Event (release 308); Event (release 311)])
        (init default_config)))
  ∈ speed_pairs default_config.
Proof.
  apply (speeds_are_start_or_tier_pair ticking default_config).
  apply reachable_step, reachable_init.
Defined.

(** X10. When the two deadzones leave no value strictly between them
    (HIGH_DEADZONE ≤ LOW_DEADZONE + 1), no event of the horizontal axis
    stops the robot or is ignored: each one moves it to the right or to the
    left, held button or not; and where the two tests overlap, the move is
    to the right. *)
Theorem overlapping_deadzones_never_stop (clock : nat → Z) s absevent held :
  timed s →
  evdev.code absevent = evdev.ecodes.ABS_X →
  HIGH_DEADZONE s ≤ LOW_DEADZONE s + 1 →
  handle_abs_event clock absevent held s =
    move clock (if evdev.value absevent >=? HIGH_DEADZONE s
                then "right" else "left") s ∧
  ∃ d, (d = "right" ∨ d = "left") ∧
       current_direction (handle_abs_event clock absevent held s).1.2 = Some d.
Proof.
  intros Ht Hc Hz. unfold handle_abs_event. rewrite bind_get, Hc.
  change (evdev.ecodes.ABS_X =? evdev.ecodes.ABS_X) with true. cbv iota.
  destruct (Z.geb_spec (evdev.value absevent) (HIGH_DEADZONE s)).
  - split; [done|]. exists "right". split; [by left|].
    rewrite move_timed by done. apply moved_direction.
  - destruct (Z.leb_spec (evdev.value absevent) (LOW_DEADZONE s)); [|lia].
    split; [done|]. exists "left". split; [by right|].
    rewrite move_timed by done. apply moved_direction.
Qed.

(** Both deadzones at 128, the stick at rest on 128. *)
Lemma overlapping_deadzones_never_stop_witness :
  ∃ d, (d = "right" ∨ d = "left") ∧
    current_direction
      (handle_abs_event ticking (axis_event 128) false
         (init {| LEFT_MOTOR_SPEED := 0.5; RIGHT_MOTOR_SPEED := 0.51;
                  SLOW_SPEED := 0.25; NORMAL_SPEED := 0.5;
                  FAST_SPEED := 0.75; SUPER_SPEED := 0.99;
                  CFG_HIGH_DEADZONE := 128; CFG_LOW_DEADZONE := 128 |})).1.2
    = Some d.
Proof.
  apply (overlapping_deadzones_never_stop ticking
           (init {| LEFT_MOTOR_SPEED := 0.5; RIGHT_MOTOR_SPEED := 0.51;
                    SLOW_SPEED := 0.25; NORMAL_SPEED := 0.5;
                    FAST_SPEED := 0.75; SUPER_SPEED := 0.99;
                    CFG_HIGH_DEADZONE := 128; CFG_LOW_DEADZONE := 128 |})
           (axis_event 128) false).
  - apply init_timed.
  - reflexivity.
  - simpl. lia.
Defined.

(** ** Connecting and finding the controller *)

Lemma append_String a s1 s2 : String a s1 +:+ s2 = String a (s1 +:+ s2).
Proof. reflexivity. Qed.

Lemma prefix_append needle haystack :
  String.prefix needle haystack = true ↔ ∃ rest, haystack = needle +:+ rest.
Proof.
  revert haystack. induction needle as [|a needle IH]; intros haystack.
  - destruct haystack; simpl; (split; [intros _; by eexists|done]).
  - setoid_rewrite append_String. destruct haystack as [|b haystack]; simpl.
    + split; [done|]. by intros [rest [=]].
    + destruct (Ascii.ascii_dec a b) as [->|Hne].
      * rewrite IH. split; intros [rest H]; exists rest; congruence.
      * split; [done|]. intros [rest [=]]. congruence.
Qed.

(** [contains] is the substring test. *)
Lemma contains_infix needle haystack :
  contains needle haystack = true ↔
  ∃ before after, haystack = before +:+ needle +:+ after.
Proof.
  induction haystack as [|b haystack IH]; cbn [contains].
  - rewrite orb_false_r, prefix_append. split.
    + intros [rest H]. by exists "", rest.
    + intros ([|c before] & after & H); [by exists after|].
      rewrite append_String in H. discriminate H.
  - rewrite orb_true_iff, IH, prefix_append. split.
    + intros [[rest H]|(before & after & H)].
      * by exists "", rest.
      * exists (String b before), after. rewrite append_String. by rewrite H.
    + intros ([|c before] & after & H).
      * left. by exists after.
      * right. exists before, after. rewrite append_String in H. congruence.
Qed.

Section Bluetooth.

Import robot_utils.

Variable shell : string → CompletedProcess.
Variable mac_address : string.

Let info_command := "bluetoothctl info " +:+ mac_address.
Let connect_command := "bluetoothctl connect " +:+ mac_address.
Let trust_command := "bluetoothctl trust " +:+ mac_address.

(** [ensure_device_connected], case by case. *)
Lemma ensure_device_connected_cases :
  let started := Logged info "Connecting to controller..." in
  let failed c :=
    Logged error
      ("Error connecting to device: " +:+ "Error: " +:+ stderr (shell c)) in
  ensure_device_connected shell mac_address =
    if negb (returncode (shell info_command) =? 0) then
      (RuntimeError ("Error: " +:+ stderr (shell info_command)),
       [started; Ran info_command; failed info_command])
    else if negb (contains "Connected: no" (stdout (shell info_command))) then
      (Ok tt, [started; Ran info_command])
    else if negb (returncode (shell connect_command) =? 0) then
      (RuntimeError ("Error: " +:+ stderr (shell connect_command)),
       [started; Ran info_command; Ran connect_command; failed connect_command])
    else if negb (returncode (shell trust_command) =? 0) then
      (RuntimeError ("Error: " +:+ stderr (shell trust_command)),
       [started; Ran info_command; Ran connect_command; Ran trust_command;
        failed trust_command])
    else
      (Ok tt, [started; Ran info_command; Ran connect_command;
               Ran trust_command]).
Proof.
  unfold ensure_device_connected, run_command, bind_U, try_except_raise, log.
  fold info_command connect_command trust_command.
  destruct (returncode (shell info_command) =? 0); [|reflexivity].
  simpl. destruct (contains _ _); [|reflexivity].
  simpl. destruct (returncode (shell connect_command) =? 0); [|reflexivity].
  simpl. destruct (returncode (shell trust_command) =? 0); reflexivity.
Qed.

End Bluetooth.

Lemma bluetooth_commands_differ mac :
  "bluetoothctl info " +:+ mac ≠ "bluetoothctl connect " +:+ mac ∧
  "bluetoothctl info " +:+ mac ≠ "bluetoothctl trust " +:+ mac ∧
  "bluetoothctl connect " +:+ mac ≠ "bluetoothctl trust " +:+ mac.
Proof. repeat split; intros H; vm_compute in H; discriminate H. Qed.

(** X11. [ensure_device_connected] runs at most three commands, each once
    and in this order: the query of the device, the connection, the trust.
    It always runs the query.  It runs the connection exactly when the query
    succeeded and its output has the text "Connected: no" (so it never
    connects a device that is reported otherwise, nor one whose query
    failed), and the trust exactly when the connection was run and
    succeeded. *)
Theorem bluetooth_commands_in_order
  (shell : string → robot_utils.CompletedProcess) mac_address :
  let info_command := "bluetoothctl info " +:+ mac_address in
  let connect_command := "bluetoothctl connect " +:+ mac_address in
  let trust_command := "bluetoothctl trust " +:+ mac_address in
  let commands :=
    robot_utils.ran (robot_utils.ensure_device_connected shell mac_address).2 in
  commands `prefix_of` [info_command; connect_command; trust_command] ∧
  info_command ∈ commands ∧
  (connect_command ∈ commands ↔
     robot_utils.returncode (shell info_command) = 0 ∧
     contains "Connected: no" (robot_utils.stdout (shell info_command)) = true) ∧
  (trust_command ∈ commands ↔
     connect_command ∈ commands ∧
     robot_utils.returncode (shell connect_command) = 0).
Proof.
  intros info_command connect_command trust_command commands.
  destruct (bluetooth_commands_differ mac_address) as (H1 & H2 & H3).
  fold info_command connect_command trust_command in H1, H2, H3.
  unfold commands. rewrite ensure_device_connected_cases.
  fold info_command connect_command trust_command.
  destruct (Z.eqb_spec (robot_utils.returncode (shell info_command)) 0)
    as [Ei|Ei]; simpl;
    [|split; [by exists [connect_command; trust_command]|];
      rewrite !elem_of_cons, !elem_of_nil; intuition congruence].
  destruct (contains _ _); simpl;
    [|split; [by exists [connect_command; trust_command]|];
      rewrite !elem_of_cons, !elem_of_nil; intuition congruence].
  destruct (Z.eqb_spec (robot_utils.returncode (shell connect_command)) 0)
    as [Ec|Ec]; simpl;
    [|split; [by exists [trust_command]|];
      rewrite !elem_of_cons, !elem_of_nil; intuition congruence].
  destruct (robot_utils.returncode (shell trust_command) =? 0); simpl;
    (split; [by exists []|]);
    rewrite !elem_of_cons, !elem_of_nil; intuition congruence.
Qed.

(** X12. [ensure_device_connected] raises exactly when the last command it
    ran failed (returned a code other than 0): the error is the
    [RuntimeError] of that command, with its standard error as the text,
    and the last thing done before it is raised again is to log it as an
    error.  When it returns, every command it ran succeeded and no error is
    logged. *)
Theorem bluetooth_failure_is_logged_and_raised
  (shell : string → robot_utils.CompletedProcess) mac_address :
  let r := robot_utils.ensure_device_connected shell mac_address in
  match r.1 with
  | robot_utils.Ok _ =>
      Forall (λ c, robot_utils.returncode (shell c) = 0) (robot_utils.ran r.2) ∧
      ∀ message, robot_utils.Logged robot_utils.error message ∉ r.2
  | robot_utils.RuntimeError message =>
      ∃ c earlier,
        robot_utils.ran r.2 = earlier ++ [c] ∧
        Forall (λ c, robot_utils.returncode (shell c) = 0) earlier ∧
        robot_utils.returncode (shell c) ≠ 0 ∧
        message = "Error: " +:+ robot_utils.stderr (shell c) ∧
        last r.2 = Some (robot_utils.Logged robot_utils.error
                           ("Error connecting to device: " +:+ message))
  end.
Proof.
  intros r. unfold r. rewrite ensure_device_connected_cases.
  set (info_command := "bluetoothctl info " +:+ mac_address).
  set (connect_command := "bluetoothctl connect " +:+ mac_address).
  set (trust_command := "bluetoothctl trust " +:+ mac_address).
  destruct (Z.eqb_spec (robot_utils.returncode (shell info_command)) 0)
    as [Ei|Ei]; simpl;
    [|by exists info_command, []].
  destruct (contains _ _); simpl.
  2: { split; [by repeat constructor|].
       intros m. rewrite !elem_of_cons, elem_of_nil. intuition congruence. }
  destruct (Z.eqb_spec (robot_utils.returncode (shell connect_command)) 0)
    as [Ec|Ec]; simpl;
    [|exists connect_command, [info_command]; by repeat constructor].
  destruct (Z.eqb_spec (robot_utils.returncode (shell trust_command)) 0)
    as [Et|Et]; simpl.
  - split; [by repeat constructor|].
    intros m. rewrite !elem_of_cons, elem_of_nil. intuition congruence.
  - exists trust_command, [info_command; connect_command].
    by repeat constructor.
Qed.

Section Finding.

Import robot_utils.

Lemma examine_find devices :
  (examine devices).1 = List.find is_controller devices.
Proof.
  induction devices as [|d devices IH]; [done|]. simpl. unfold is_controller.
  destruct (contains _ (name d)); [done|].
  by destruct (examine devices) as [r t].
Qed.

Lemma examine_quiet devices :
  slept (examine devices).2 = [] ∧ spawned (examine devices).2 = [].
Proof.
  induction devices as [|d devices IH]; [done|]. simpl.
  destruct (contains _ (name d)); [done|].
  by destruct (examine devices) as [r t].
Qed.

Lemma find_fruitless devices reopen_error :
  fruitless (Listed devices reopen_error) = true ↔
  List.find is_controller devices = None.
Proof.
  simpl. induction devices as [|d devices IH]; [done|]. simpl.
  destruct (is_controller d); simpl; [done|exact IH].
Qed.

Lemma slept_app t1 t2 : slept (t1 ++ t2) = slept t1 ++ slept t2.
Proof. apply omap_app. Qed.

Lemma spawned_app t1 t2 : spawned (t1 ++ t2) = spawned t1 ++ spawned t2.
Proof. apply omap_app. Qed.

Lemma find_controller_never_spawns recursion_error scans :
  ∀ depth, spawned (find_controller recursion_error depth scans).2 = [].
Proof.
  induction scans as [|[devices reopen|message] scans IH]; intros depth;
    [done| |done].
  cbn [find_controller].
  pose proof (examine_quiet devices) as [_ Hq].
  destruct (examine devices) as [[d|] t]; simpl in *.
  - destruct reopen; simpl; by rewrite ?spawned_app, Hq.
  - destruct depth as [|depth]; simpl.
    { by rewrite !spawned_app, Hq. }
    specialize (IH depth).
    destruct (find_controller recursion_error depth scans) as [r t'].
    simpl in IH.
    change (spawned ([Logged info "Finding controller..."] ++ t
                     ++ [Logged warning "PS4 controller not found. Retrying...";
                         Slept 2] ++ t') = []).
    by rewrite !spawned_app, Hq, IH.
Qed.

Lemma examine_none devices reopen_error t :
  examine devices = (None, t) → fruitless (Listed devices reopen_error) = true.
Proof.
  intros H. apply find_fruitless. by rewrite <- examine_find, H.
Qed.

End Finding.

(** X13. While the interpreter allows the recursion, the result of
    [find_controller] is decided by the first scan that is not fruitless, a
    fruitless scan being one that lists devices none of which has
    "Wireless Controller" in its name.  If that scan lists such devices,
    the first of them in the order of the list is chosen, and its path is
    returned if the device can be opened, while [SystemExit(1)] is raised
    if it cannot; if the scan itself fails, [SystemExit(1)] is raised; if
    there is no such scan yet, the search goes on.  When more fruitless
    scans come first than the [depth] of nested calls allowed,
    [SystemExit(1)] is raised after the scan of the last call allowed.
    Until then it sleeps 2 seconds after each fruitless scan, and at no
    other time. *)
Theorem find_controller_decided_by_first_scan
  (recursion_error : string) (depth : nat) (scans : list robot_utils.scan) :
  let n := robot_utils.fruitless_scans scans in
  robot_utils.slept (robot_utils.find_controller recursion_error depth scans).2
    = replicate (n `min` S depth) 2 ∧
  (robot_utils.find_controller recursion_error depth scans).1 =
    if (n <=? depth)%nat then
      match scans !! n with
      | None => robot_utils.Searching
      | Some (robot_utils.Unlisted _) => robot_utils.Exits 1
      | Some (robot_utils.Listed devices reopen_error) =>
          match List.find robot_utils.is_controller devices, reopen_error with
          | Some device, None => robot_utils.Found (robot_utils.path device)
          | _, _ => robot_utils.Exits 1
          end
      end
    else robot_utils.Exits 1.
Proof.
  revert depth.
  induction scans as [|[devices reopen|message] scans IH]; intros depth;
    [done| |done].
  cbn [robot_utils.find_controller robot_utils.fruitless_scans].
  pose proof (examine_find devices) as Hf.
  pose proof (examine_quiet devices) as [Hq _].
  destruct (robot_utils.examine devices) as [[d|] t] eqn:Ex; simpl in Hf, Hq.
  - destruct (robot_utils.fruitless _) eqn:E.
    { apply find_fruitless in E. congruence. }
    simpl. rewrite <- Hf.
    destruct reopen; simpl; by rewrite ?slept_app, Hq.
  - rewrite (examine_none devices reopen t Ex).
    destruct depth as [|depth].
    + cbn [fst snd Nat.min Nat.leb]. rewrite Nat.min_0_r. split; [|done].
      change (robot_utils.slept
                ([robot_utils.Logged robot_utils.info "Finding controller..."]
                 ++ (t ++ [robot_utils.Logged robot_utils.warning
                             "PS4 controller not found. Retrying...";
                           robot_utils.Slept 2])
                 ++ [robot_utils.Logged robot_utils.error
                       ("Error finding PS4 controller: " +:+ recursion_error)])
              = [2]).
      by rewrite !slept_app, Hq.
    + specialize (IH depth).
      destruct (robot_utils.find_controller recursion_error depth scans)
        as [r t'].
      destruct IH as [IH1 IH2]. simpl in IH1, IH2. split; [|exact IH2].
      change (robot_utils.slept
                ([robot_utils.Logged robot_utils.info "Finding controller..."]
                 ++ t
                 ++ [robot_utils.Logged robot_utils.warning
                       "PS4 controller not found. Retrying...";
                     robot_utils.Slept 2] ++ t')
              = 2 :: replicate
                       (robot_utils.fruitless_scans scans `min` S depth) 2).
      by rewrite !slept_app, Hq, IH1.
Qed.


(** ** The monitor of the PS button *)

Section Monitor.

Import robot_utils ps_button_monitor.

Variable recursion_error : string.
Variable depth : nat.

Lemma watch_spawns inputs popen_error :
  match (for_event_in_read_loop inputs popen_error).1 with
  | Launched =>
      spawned (for_event_in_read_loop inputs popen_error).2
      = [["python3"; "robot_controller.py"]] ∧
      popen_error = None ∧ (0 < ps_presses inputs)%nat
  | _ => spawned (for_event_in_read_loop inputs popen_error).2 = []
  end.
Proof.
  induction inputs as [|[ev|e] inputs IH]; [done| |done].
  cbn [for_event_in_read_loop]. unfold ps_presses. cbn [omap list_omap].
  destruct (is_ps_press ev).
  - destruct popen_error; [done|]. simpl. repeat split; lia.
  - exact IH.
Qed.

Lemma main_spawned turn turns :
  spawned (main recursion_error depth (turn :: turns)).2 =
    if completes recursion_error depth turn
    then ["python3"; "robot_controller.py"]
           :: spawned (main recursion_error depth turns).2
    else [].
Proof.
  cbn [main]. unfold completes.
  pose proof (find_controller_never_spawns recursion_error (scans turn) depth)
    as Hf.
  destruct (find_controller recursion_error depth (scans turn))
    as [[p|c|] t1]; simpl in Hf; [|done..].
  pose proof (watch_spawns (inputs turn) (popen_error turn)) as Hw.
  destruct (for_event_in_read_loop _ _) as [[| |e] t2]; simpl in Hw.
  - destruct (main recursion_error depth turns) as [st t3].
    destruct Hw as (Hw & _ & _).
    change (spawned (t1 ++ [Logged info
              "PS4 controller connected. Monitoring for PS button press..."]
              ++ t2 ++ t3)
            = ["python3"; "robot_controller.py"] :: spawned t3).
    by rewrite !spawned_app, Hf, Hw.
  - change (spawned (t1 ++ [Logged info
              "PS4 controller connected. Monitoring for PS button press..."]
              ++ t2) = []).
    by rewrite !spawned_app, Hf, Hw.
  - change (spawned (t1 ++ [Logged info
              "PS4 controller connected. Monitoring for PS button press..."]
              ++ t2) = []).
    by rewrite !spawned_app, Hf, Hw.
Qed.

Lemma completes_pressed turn :
  completes recursion_error depth turn = true →
  (0 < ps_presses (inputs turn))%nat.
Proof.
  unfold completes. destruct (find_controller _ _ _) as [[p|c|] t1]; try done.
  pose proof (watch_spawns (inputs turn) (popen_error turn)) as Hw.
  destruct (for_event_in_read_loop _ _) as [[| |e] t2]; try done.
  intros _. apply Hw.
Qed.

Lemma main_completes turn turns :
  completes recursion_error depth turn = true →
  (main recursion_error depth (turn :: turns)).1
  = (main recursion_error depth turns).1.
Proof.
  cbn [main]. unfold completes.
  destruct (find_controller _ _ _) as [[p|c|] t1]; try done.
  destruct (for_event_in_read_loop _ _) as [[| |e] t2]; try done.
  by destruct (main recursion_error depth turns).
Qed.

End Monitor.

(** X15. The monitor starts the controller script once in every turn of
    its loop in which the controller is found, the PS button is pressed and
    the process starts, and then goes on monitoring: it never stops of
    itself, and a later press starts the script again, whether or not the
    one started before is still running. *)
Theorem monitor_launches_at_each_press
  (recursion_error : string) (depth : nat)
  (turns : list ps_button_monitor.turn) :
  Forall (λ turn, ps_button_monitor.completes recursion_error depth turn
                  = true) turns →
  ∃ t, ps_button_monitor.main recursion_error depth turns
       = (ps_button_monitor.Blocked, t) ∧
    robot_utils.spawned t
    = replicate (length turns) ["python3"; "robot_controller.py"].
Proof.
  induction 1 as [|turn turns Hc _ IH]; [by eexists|].
  destruct IH as (t & Hm & Hs).
  pose proof (main_spawned recursion_error depth turn turns) as H1.
  pose proof (main_completes recursion_error depth turn turns Hc) as H2.
  rewrite Hc, Hm in H1. rewrite Hm in H2.
  destruct (ps_button_monitor.main recursion_error depth (turn :: turns))
    as [st t'].
  simpl in H1, H2. subst st. exists t'. split; [done|].
  rewrite H1. simpl. by rewrite Hs.
Qed.

(** Two turns, each with a press of the PS button, the second after a
    fruitless scan; one nested call of [find_controller] is allowed. *)
Lemma monitor_launches_at_each_press_witness :
  ∃ t,
    ps_button_monitor.main "maximum recursion depth exceeded" 1
      [ {| ps_button_monitor.scans :=
             [robot_utils.Listed
                [ {| robot_utils.path := "/dev/input/event2";
                     robot_utils.name := "Sony Wireless Controller" |} ] None];
           ps_button_monitor.inputs := [Event (release 316); Event (press 316)];
           ps_button_monitor.popen_error := None |};
        {| ps_button_monitor.scans :=
             [robot_utils.Listed [] None;
              robot_utils.Listed
                [ {| robot_utils.path := "/dev/input/event2";
                     robot_utils.name := "Sony Wireless Controller" |} ] None];
           ps_button_monitor.inputs := [Event (press 316)];
           ps_button_monitor.popen_error := None |} ]
    = (ps_button_monitor.Blocked, t) ∧
    robot_utils.spawned t
    = [ ["python3"; "robot_controller.py"]; ["python3"; "robot_controller.py"] ].
Proof.
  apply (monitor_launches_at_each_press "maximum recursion depth exceeded" 1
           [ {| ps_button_monitor.scans :=
                  [robot_utils.Listed
                     [ {| robot_utils.path := "/dev/input/event2";
                          robot_utils.name := "Sony Wireless Controller" |} ]
                     None];
                ps_button_monitor.inputs :=
                  [Event (release 316); Event (press 316)];
                ps_button_monitor.popen_error := None |};
             {| ps_button_monitor.scans :=
                  [robot_utils.Listed [] None;
                   robot_utils.Listed
                     [ {| robot_utils.path := "/dev/input/event2";
                          robot_utils.name := "Sony Wireless Controller" |} ]
                     None];
                ps_button_monitor.inputs := [Event (press 316)];
                ps_button_monitor.popen_error := None |} ]).
  repeat constructor.
Defined.

(** X16. The monitor starts nothing but the controller script, with
    [python3], and only at a press of the PS button (key code 316, value
    1): it starts it at most once in a turn of its loop, and in all at most
    as often as the PS button was pressed.  No other key, no release and
    no event of another type starts anything. *)
Theorem monitor_launches_only_at_a_press
  (recursion_error : string) (depth : nat)
  (turns : list ps_button_monitor.turn) :
  let launches :=
    robot_utils.spawned
      (ps_button_monitor.main recursion_error depth turns).2 in
  Forall (λ argv, argv = ["python3"; "robot_controller.py"]) launches ∧
  (length launches ≤ length turns)%nat ∧
  (length launches
   ≤ sum_list ((λ turn, ps_button_monitor.ps_presses
                          (ps_button_monitor.inputs turn)) <$> turns))%nat.
Proof.
  induction turns as [|turn turns IH]; [by repeat constructor|].
  intros launches. unfold launches. rewrite main_spawned. csimpl.
  destruct IH as (IH1 & IH2 & IH3).
  destruct (ps_button_monitor.completes recursion_error depth turn) eqn:Hc.
  - apply completes_pressed in Hc.
    split; [by constructor|]. simpl. lia.
  - repeat constructor; simpl; lia.
Qed.

(** ** Scenarios *)

(** The right bumper pressed and released: forward at the default speeds,
    then stop, with one duration record for the forward move. *)
Example bumper_press_and_release :
  let t := (main ticking [Event (press 311); Event (release 311)]
              (init default_config)).2 in
  commands t = [(PyFloat (-0.5), PyFloat (-0.51)); (PyInt 0, PyInt 0)] ∧
  telemetry t = [("forward", 1)].
Proof. split; reflexivity. Qed.

(** The right bumper held, the stick pushed to 200 and let back to 120:
    the robot turns right and then keeps turning, since a button is held. *)
Example stick_while_bumper_held :
  let t := (main ticking [Event (press 311); Event (axis_event 200);
                          Event (axis_event 120)] (init default_config)) in
  t.1.1 = Waiting true ∧
  current_direction t.1.2 = Some "right" ∧
  commands t.2 = [(PyFloat (-0.5), PyFloat (-0.51));
                  (PyFloat 0.5, PyFloat (-0.51))].
Proof. repeat split; reflexivity. Qed.

(** The speed types are flags of their own: with slow and fast both on,
    turning slow off gives the normal speeds although fast is still on. *)
Example slow_off_while_fast_on :
  let s := toggle_all ["slow"; "fast"; "slow"] (init default_config) in
  (leftmotorspeed s, rightmotorspeed s) = (0.5, 0.51)%float ∧
  variable_speed_map s !! "fast" = Some 1.
Proof. split; reflexivity. Qed.

(** With [SUPER_SPEED=1.0] the right motor speed of the super tier is 1.01:
    after the circle, the press of the right bumper assigns a command that
    the driver rejects; [main] catches the error, stops the robot, logs the
    error and returns. *)
Example super_speed_out_of_range :
  let s := perform ticking (ModifySpeedHelper "super")
             (init full_speed_config) in
  let r := main ticking [Event (release 305); Event (press 311)]
             (init full_speed_config) in
  speeds_in_range (init full_speed_config) = false ∧
  (handle_key_event ticking (press 311) false s).1.1
    = Raised OutputDeviceBadValue ∧
  r.1.1 = Returned ∧
  commands r.2 = [(PyFloat (-1), PyFloat (-1.01)); (PyInt 0, PyInt 0)] ∧
  last r.2 = Some (Log ERROR (MainLoopError OutputDeviceBadValue)).
Proof. repeat split; reflexivity. Qed.

(** The flag after a release that leaves another button down: the right
    bumper is still down when the x button is released, and the flag is
    cleared. *)
Example release_with_another_button_down :
  let evs := [press 311; press 304; release 304] in
  buttons_down evs = {[311]} ∧
  (event_loop ticking (Event <$> evs) false (init default_config)).1.1
    = Done false.
Proof. split; [by vm_compute|reflexivity]. Qed.

(** With one nested call allowed, the second fruitless scan is the last:
    the third call raises [RecursionError], and the second call logs it
    and exits, although the controller would have been listed next. *)
Example retries_exhaust_the_recursion :
  robot_utils.find_controller "maximum recursion depth exceeded" 1
    [ robot_utils.Listed [] None; robot_utils.Listed [] None;
      robot_utils.Listed
        [ {| robot_utils.path := "/dev/input/event2";
             robot_utils.name := "Wireless Controller" |} ] None ]
  = (robot_utils.Exits 1,
     [ robot_utils.Logged robot_utils.info "Finding controller...";
       robot_utils.Logged robot_utils.warning
         "PS4 controller not found. Retrying...";
       robot_utils.Slept 2;
       robot_utils.Logged robot_utils.info "Finding controller...";
       robot_utils.Logged robot_utils.warning
         "PS4 controller not found. Retrying...";
       robot_utils.Slept 2;
       robot_utils.Logged robot_utils.error
         "Error finding PS4 controller: maximum recursion depth exceeded" ]).
Proof. reflexivity. Qed.
